(** * Morse protocol decoder (pd.py): a shallow embedding and its properties

    The decoder is three nested Python generators:
    [decode_symbols] (edges to classified symbols, with an adaptive time
    unit), [decode_morse] (symbols to letters) and [decode] (letters to
    words).  Each generator is embedded as a step function over its private
    state; what the host framework returns from [self.wait] is the input.

    Python raises exceptions where this code divides by zero, rounds a
    non-finite float or indexes a dict with a missing key; the embedding
    makes them explicit in the [result] type. *)

From Stdlib Require Import ZArith QArith Qabs Qfield Lqa List String Ascii Bool Lia Floats.
Import ListNotations.

Local Open Scope string_scope.
Local Open Scope Z_scope.

(** ** Exceptions *)

Inductive exn : Set :=
| ZeroDivisionError
| OverflowError
| ValueError
| KeyError.

Inductive result (A : Type) : Type :=
| Ok (a : A)
| Raise (e : exn).

Arguments Ok {A} a.
Arguments Raise {A} e.

Definition bind {A B : Type} (r : result A) (k : A -> result B) : result B :=
  match r with
  | Ok a => k a
  | Raise e => Raise e
  end.

Notation "x <- r ;; k" := (bind r (fun x => k))
  (at level 61, r at next level, right associativity).

(** ** Dits and dahs: [decode_ditdah] and [encode_ditdah]

    A tuple of ints is a [list Z], a [str] is a [string].  Both functions
    index a literal dict, which raises [KeyError] on any other key. *)

Definition ditdah_of_char (c : ascii) : result Z :=
  if Ascii.eqb c "-" then Ok 3
  else if Ascii.eqb c "." then Ok 1
  else Raise KeyError.

Fixpoint decode_ditdah (s : string) : result (list Z) :=
  match s with
  | EmptyString => Ok []
  | String c s' =>
      u <- ditdah_of_char c ;;
      us <- decode_ditdah s' ;;
      Ok (u :: us)
  end.

Definition char_of_ditdah (u : Z) : result ascii :=
  if u =? 1 then Ok "."%char
  else if u =? 3 then Ok "-"%char
  else Raise KeyError.

Fixpoint encode_ditdah (tpl : list Z) : result string :=
  match tpl with
  | [] => Ok EmptyString
  | u :: tpl' =>
      c <- char_of_ditdah u ;;
      s <- encode_ditdah tpl' ;;
      Ok (String c s)
  end.

(** A dit/dah sequence proper: every element is 1 or 3. *)
Definition is_ditdah (u : Z) : Prop := u = 1 \/ u = 3.
Definition ditdah_seq (tpl : list Z) : Prop := Forall is_ditdah tpl.

(** ** The alphabet table

    The literal dict of the source, in its order.  Strings are byte strings
    here, so the three non-ASCII values are their UTF-8 bytes. *)

Definition alphabet_literal : list (string * string) :=
  [ (".-", "a"); ("-...", "b"); ("-.-.", "c"); ("-..", "d"); (".", "e");
    ("..-..", "é"); ("..-.", "f"); ("--.", "g"); ("....", "h"); ("..", "i");
    (".---", "j"); ("-.-", "k"); (".-..", "l"); ("--", "m"); ("-.", "n");
    ("---", "o"); (".--.", "p"); ("--.-", "q"); (".-.", "r"); ("...", "s");
    ("-", "t"); ("..-", "u"); ("...-", "v"); (".--", "w"); ("-..-", "x");
    ("-.--", "y"); ("--..", "z");
    (".----", "1"); ("..---", "2"); ("...--", "3"); ("....-", "4");
    (".....", "5"); ("-....", "6"); ("--...", "7"); ("---..", "8");
    ("----.", "9"); ("-----", "0");
    (".-.-.-", "."); ("--..--", ","); ("---...", ":"); ("..--..", "?");
    (".----.", "’"); ("-....-", "-"); ("-..-.", "/"); ("-.--.", "(");
    ("-.--.-", ")"); (".-..-.", "“ ”"); ("-...-", "="); ("...-.", "UNDERSTOOD");
    ("........", "ERROR"); (".-.-.", "+"); (".-...", "WAIT"); ("...-.-", "EOW");
    ("-.-.-", "START"); (".--.-.", "@") ].

(** [alphabet = { decode_ditdah(k): v for k,v in alphabet.items() }] *)
Fixpoint rekey (kvs : list (string * string)) : result (list (list Z * string)) :=
  match kvs with
  | [] => Ok []
  | (k, v) :: kvs' =>
      k' <- decode_ditdah k ;;
      rest <- rekey kvs' ;;
      Ok ((k', v) :: rest)
  end.

Definition alphabet : list (list Z * string) :=
  Eval vm_compute in
    match rekey alphabet_literal with
    | Ok tbl => tbl
    | Raise _ => []
    end.

Fixpoint seq_eqb (a b : list Z) : bool :=
  match a, b with
  | [], [] => true
  | x :: a', y :: b' => (x =? y) && seq_eqb a' b'
  | _, _ => false
  end.

(** [dict.get(key)]: the value bound to [key], if any. *)
Fixpoint dict_get {V : Type} (tbl : list (list Z * V)) (key : list Z) : option V :=
  match tbl with
  | [] => None
  | (k, v) :: tbl' => if seq_eqb k key then Some v else dict_get tbl' key
  end.

(** [alphabet.get(sequence, encode_ditdah(sequence))].  Python evaluates the
    default argument before the call, so the rendering is computed, and may
    raise, whether or not the sequence is in the table. *)
Definition resolve (sequence : list Z) : result string :=
  fallback <- encode_ditdah sequence ;;
  Ok (match dict_get alphabet sequence with
      | Some letter => letter
      | None => fallback
      end).

(** ** The symbol table: (level, time units) *)

Definition symbols : list ((Z * Z) * string) :=
  [ ((1, 1), "*"); ((1, 3), "==="); ((0, 1), "_"); ((0, 3), "__"); ((0, 7), "___") ].

Definition symbol_eqb (a b : Z * Z) : bool :=
  (fst a =? fst b) && (snd a =? snd b).

(** [symbol in symbols] *)
Definition in_symbols (symbol : Z * Z) : bool :=
  existsb (fun kv => symbol_eqb (fst kv) symbol) symbols.

(** ** Float arithmetic

    [decode_symbols] computes with Python floats.  The operations it uses
    form an interface, so that what is proved of the control flow holds for
    any arithmetic; the instance [binary64] is the IEEE double of CPython,
    the instance [exact] computes in the rationals. *)

Class PyFloat (F : Type) : Type := {
  fadd : F -> F -> F;
  fsub : F -> F -> F;
  fmul : F -> F -> F;
  fquot : F -> F -> F;             (* the quotient by a non-zero divisor *)
  fabs : F -> F;
  fzerob : F -> bool;              (* [x == 0.0] *)
  float_of_int : Z -> result F;    (* int to float, [OverflowError] if too large *)
  py_round : F -> result Z;        (* [round(x)]: to nearest, ties to even *)
  py_int : F -> result Z;          (* [int(x)]: towards zero *)
  lit_0_02 : F                     (* the literal [0.02] *)
}.

Section Arith.
Context {F : Type} `{PyFloat F}.

(** [x / y] on floats *)
Definition truediv (x y : F) : result F :=
  if fzerob y then Raise ZeroDivisionError else Ok (fquot x y).

(** [i / y], [x / i], [i * x], [x * i], [x - i] with [i] an int: the int
    operand is converted first. *)
Definition int_truediv (i : Z) (y : F) : result F :=
  x <- float_of_int i ;; truediv x y.
Definition truediv_int (x : F) (i : Z) : result F :=
  y <- float_of_int i ;; truediv x y.
Definition int_mul (i : Z) (x : F) : result F :=
  y <- float_of_int i ;; Ok (fmul y x).
Definition mul_int (x : F) (i : Z) : result F :=
  y <- float_of_int i ;; Ok (fmul x y).
Definition sub_int (x : F) (i : Z) : result F :=
  y <- float_of_int i ;; Ok (fsub x y).
End Arith.

(** *** Rounding a rational *)

(** To the nearest integer, ties to the even one. *)
Definition round_half_even (n d : Z) : Z :=
  let fl := n / d in
  let r := n mod d in
  match 2 * r ?= d with
  | Lt => fl
  | Gt => fl + 1
  | Eq => if Z.even fl then fl else fl + 1
  end.

Definition Qround_half_even (q : Q) : Z := round_half_even (Qnum q) (Zpos (Qden q)).
Definition Qtrunc (q : Q) : Z := Z.quot (Qnum q) (Zpos (Qden q)).

#[export] Instance exact : PyFloat Q := {
  fadd := Qplus;
  fsub := Qminus;
  fmul := Qmult;
  fquot := Qdiv;
  fabs := Qabs;
  fzerob := fun q => Qnum q =? 0;
  float_of_int := fun z => Ok (inject_Z z);
  py_round := fun q => Ok (Qround_half_even q);
  py_int := fun q => Ok (Qtrunc q);
  lit_0_02 := 2 # 100
}.

(** *** IEEE doubles *)

(** The integer nearest to [m * 2^e], ties to even, and its truncation. *)
Definition round_scaled (m e : Z) : Z :=
  if 0 <=? e then m * 2 ^ e else round_half_even m (2 ^ (- e)).
Definition trunc_scaled (m e : Z) : Z :=
  if 0 <=? e then m * 2 ^ e else m / 2 ^ (- e).

Definition signed (s : bool) (z : Z) : Z := if s then - z else z.

Definition float_round (x : float) : result Z :=
  match Prim2SF x with
  | S754_zero _ => Ok 0
  | S754_finite s m e => Ok (signed s (round_scaled (Zpos m) e))
  | S754_infinity _ => Raise OverflowError
  | S754_nan => Raise ValueError
  end.

Definition float_int (x : float) : result Z :=
  match Prim2SF x with
  | S754_zero _ => Ok 0
  | S754_finite s m e => Ok (signed s (trunc_scaled (Zpos m) e))
  | S754_infinity _ => Raise OverflowError
  | S754_nan => Raise ValueError
  end.

Definition float_of_Z (z : Z) : result float :=
  match binary_normalize prec emax z 0 false with
  | S754_infinity _ => Raise OverflowError
  | sf => Ok (SF2Prim sf)
  end.

#[export] Instance binary64 : PyFloat float := {
  fadd := PrimFloat.add;
  fsub := PrimFloat.sub;
  fmul := PrimFloat.mul;
  fquot := PrimFloat.div;
  fabs := PrimFloat.abs;
  fzerob := fun x => PrimFloat.eqb x PrimFloat.zero;
  float_of_int := float_of_Z;
  py_round := float_round;
  py_int := float_int;
  lit_0_02 := 0x1.47ae147ae147bp-6%float
}.

(** ** What the host hands to the decoder

    [self.wait(conds)] returns the pin value, with [self.samplenum] set to
    the sample where a condition matched and [self.matched] telling which
    ones did.  In the loop of [decode_symbols] the conditions are an edge on
    channel 0 and a skip of [int(5 * samplerate * timeunit)] samples. *)

Record wait_result : Set := {
  val : Z;               (* pin 0 at the matching sample *)
  samplenum : Z;         (* [self.samplenum] *)
  matched_edge : bool;   (* [self.matched[0]] *)
  matched_skip : bool    (* [self.matched[1]] *)
}.

(** What the generators yield: [None] (flush) or a tuple. *)
Inductive item : Set :=
| Flush
| Sym (t0 t1 : Z) (sval sunits : Z).   (* [(prevtime, curtime, (pval, iunits))] *)

Inductive letter_item : Set :=
| LFlush
| Letter (t0 t1 : option Z) (text : string).   (* [(s0, s1, letter)] *)

Section Decoder.
Context {F : Type} `{PyFloat F}.

(** [self.put(ss, es, self.out_ann, [row, [text]])].  Rows 0 and 1 carry
    the numbers that the source formats with ['{:.3g}'] and
    ['{:.1f}*{:.3g}']; the formatting itself is left out. *)
Inductive annotation : Type :=
| AnnTime (ss es : Z) (dt : F)
| AnnUnits (ss es : Z) (units timeunit : F)
| AnnLetter (ss es : option Z) (letter : string)
| AnnWord (ss es : option Z) (word : string).

(** *** [decode_symbols] *)

(** The generator's locals that survive an iteration. *)
Record classifier : Type := {
  prevtime : Z;
  timeunit : F
}.

(** The argument of the skip condition, [int(5 * self.samplerate * timeunit)]. *)
Definition skip_count (samplerate timeunit : F) : result Z :=
  x <- int_mul 5 samplerate ;;
  py_int (fmul x timeunit).

(** Lines 170-179: everything computed before the loop body branches. *)
Record measurement : Type := {
  m_skip : Z;
  m_pval : Z;
  m_curtime : Z;
  m_dt : F;
  m_units : F;
  m_iunits : Z;
  m_error : F
}.

Definition measure (samplerate : F) (st : classifier) (ev : wait_result)
  : result measurement :=
  skip <- skip_count samplerate (timeunit st) ;;
  let pval := 1 - val ev in
  let curtime := samplenum ev in
  dt <- int_truediv (curtime - prevtime st) samplerate ;;
  units <- truediv dt (timeunit st) ;;
  iunits <- py_round units ;;
  error <- (d <- sub_int units iunits ;; Ok (fabs d)) ;;
  Ok {| m_skip := skip; m_pval := pval; m_curtime := curtime; m_dt := dt;
        m_units := units; m_iunits := iunits; m_error := error |}.

(** Lines 191-194: advance the reference point and adapt the time unit. *)
Definition adapt (st : classifier) (m : measurement) : result classifier :=
  thisunit <- truediv_int (m_dt m) (m_iunits m) ;;
  delta <- mul_int (fmul (fsub thisunit (timeunit st)) lit_0_02) (m_iunits m) ;;
  Ok {| prevtime := m_curtime m; timeunit := fadd (timeunit st) delta |}.

(** One iteration of the [while True] loop, given what [self.wait]
    returned: the annotations put, the items yielded, and the locals for
    the next iteration unless an exception ended the generator. *)
Definition decode_symbols_step (samplerate : F) (st : classifier) (ev : wait_result)
  : list annotation * list item * result classifier :=
  match measure samplerate st ev with
  | Raise e => ([], [], Raise e)
  | Ok m =>
      if matched_skip ev then ([], [Flush], Ok st)
      else
        ([AnnTime (prevtime st) (m_curtime m) (m_dt m);
          AnnUnits (prevtime st) (m_curtime m) (m_units m) (timeunit st)],
         (if in_symbols (m_pval m, m_iunits m)
          then [Sym (prevtime st) (m_curtime m) (m_pval m) (m_iunits m)]
          else []),
         adapt st m)
  end.

(** Lines 162-167: the state at the loop's entry, [rising] being the
    sample of the first rising edge. *)
Definition decode_symbols_init (option_timeunit : F) (rising : Z) : classifier :=
  {| prevtime := rising; timeunit := option_timeunit |}.

(** *** [decode_morse] *)

Record letter_state : Set := {
  sequence : list Z;
  l_s0 : option Z;
  l_s1 : option Z
}.

Definition decode_morse_init : letter_state :=
  {| sequence := []; l_s0 := None; l_s1 := None |}.

(** Lines 220-224: resolve the letter in progress, if any. *)
Definition flush_letter (st : letter_state) : result (list letter_item * letter_state) :=
  match sequence st with
  | [] => Ok ([], st)
  | _ :: _ =>
      letter <- resolve (sequence st) ;;
      Ok ([Letter (l_s0 st) (l_s1 st) letter], decode_morse_init)
  end.

(** One iteration of the [for item in self.decode_symbols()] loop. *)
Definition decode_morse_step (st : letter_state) (it : item)
  : result (list letter_item * letter_state) :=
  match it with
  | Sym t0 t1 sval sunits =>
      if sval =? 1 then
        Ok ([], {| sequence := sequence st ++ [sunits];
                   l_s0 := match l_s0 st with None => Some t0 | Some s => Some s end;
                   l_s1 := Some t1 |})
      else if 3 <=? sunits then flush_letter st
      else Ok ([], st)
  | Flush =>
      r <- flush_letter st ;;
      Ok ((fst r ++ [LFlush])%list, snd r)
  end.

(** *** [decode] *)

Record word_state : Set := {
  word : string;
  w_s0 : option Z;
  w_s1 : option Z
}.

Definition decode_init : word_state :=
  {| word := ""; w_s0 := None; w_s1 := None |}.

(** One iteration of the [for item in self.decode_morse()] loop. *)
Definition decode_step (st : word_state) (it : letter_item)
  : list annotation * word_state :=
  match it with
  | Letter t0 t1 letter =>
      ([AnnLetter t0 t1 letter],
       {| word := (word st ++ letter)%string;
          w_s0 := match w_s0 st with None => t0 | Some s => Some s end;
          w_s1 := t1 |})
  | LFlush =>
      match word st with
      | EmptyString => ([], st)
      | String _ _ => ([AnnWord (w_s0 st) (w_s1 st) (word st)], decode_init)
      end
  end.

Fixpoint decode_steps (st : word_state) (its : list letter_item)
  : list annotation * word_state :=
  match its with
  | [] => ([], st)
  | it :: its' =>
      let '(a, st') := decode_step st it in
      let '(a', st'') := decode_steps st' its' in
      ((a ++ a')%list, st'')
  end.

Fixpoint decode_morse_steps (st : letter_state) (its : list item)
  : result (list letter_item * letter_state) :=
  match its with
  | [] => Ok ([], st)
  | it :: its' =>
      r <- decode_morse_step st it ;;
      r' <- decode_morse_steps (snd r) its' ;;
      Ok ((fst r ++ fst r')%list, snd r')
  end.

(** *** The two groupers together: what [decode] does with the items that
    [decode_symbols] yields. *)

Record grouper : Set := {
  g_letters : letter_state;
  g_words : word_state
}.

Definition grouper_init : grouper :=
  {| g_letters := decode_morse_init; g_words := decode_init |}.

Definition group_step (g : grouper) (it : item) : result (list annotation * grouper) :=
  r <- decode_morse_step (g_letters g) it ;;
  let '(anns, w) := decode_steps (g_words g) (fst r) in
  Ok (anns, {| g_letters := snd r; g_words := w |}).

Fixpoint group_run (g : grouper) (its : list item) : result (list annotation * grouper) :=
  match its with
  | [] => Ok ([], g)
  | it :: its' =>
      r <- group_step g it ;;
      r' <- group_run (snd r) its' ;;
      Ok ((fst r ++ fst r')%list, snd r')
  end.

(** *** The whole decoder on one wait result

    The classifier puts its annotations, then yields; the groupers run on
    what it yielded before it resumes, so an exception of theirs comes
    first and one of the classifier's adaptation comes last. *)

Record decoder : Type := {
  d_symbols : classifier;
  d_groups : grouper
}.

Definition decoder_init (option_timeunit : F) (rising : Z) : decoder :=
  {| d_symbols := decode_symbols_init option_timeunit rising;
     d_groups := grouper_init |}.

Definition decoder_step (samplerate : F) (d : decoder) (ev : wait_result)
  : list annotation * result decoder :=
  let '(anns, yielded, next) := decode_symbols_step samplerate (d_symbols d) ev in
  match group_run (d_groups d) yielded with
  | Raise e => (anns, Raise e)
  | Ok (anns', g) =>
      ((anns ++ anns')%list,
       c <- next ;; Ok {| d_symbols := c; d_groups := g |})
  end.

(** *** Runs of [decode_symbols] over the host's successive answers *)

Fixpoint decode_symbols_run (samplerate : F) (st : classifier) (evs : list wait_result)
  : list annotation * list item * result classifier :=
  match evs with
  | [] => ([], [], Ok st)
  | ev :: evs' =>
      let '(anns, yielded, next) := decode_symbols_step samplerate st ev in
      match next with
      | Raise e => (anns, yielded, Raise e)
      | Ok st' =>
          let '(anns', yielded', last) := decode_symbols_run samplerate st' evs' in
          ((anns ++ anns')%list, (yielded ++ yielded')%list, last)
      end
  end.

Definition put_by (r : list annotation * list item * result classifier)
  : list annotation := fst (fst r).
Definition yielded_by (r : list annotation * list item * result classifier)
  : list item := snd (fst r).
Definition next_of (r : list annotation * list item * result classifier)
  : result classifier := snd r.

(** Modelled from the spec: the host's [wait] is not part of the source.
    The spec has it return on the next edge or when the timeout of
    [5 * time-unit * clock-rate] samples has elapsed with no edge,
    whichever occurs first.  So a wait issued at sample [pos] with a
    positive skip count [n] that returns without the skip condition
    matched returns fewer than [n] samples later. *)
Definition wait_in_time (samplerate : F) (pos : Z) (st : classifier) (ev : wait_result)
  : Prop :=
  exists n, skip_count samplerate (timeunit st) = Ok n /\ 0 < n /\
            (matched_skip ev = false -> samplenum ev - pos < n).

(** Every wait of a run is in time; a wait is issued where the previous
    one returned. *)
Fixpoint host_in_time (samplerate : F) (pos : Z) (st : classifier) (evs : list wait_result)
  : Prop :=
  match evs with
  | [] => True
  | ev :: evs' =>
      wait_in_time samplerate pos st ev /\
      match next_of (decode_symbols_step samplerate st ev) with
      | Ok st' => host_in_time samplerate (samplenum ev) st' evs'
      | Raise _ => True
      end
  end.

(** Is a word annotation among those put? *)
Definition is_word (a : annotation) : bool :=
  match a with
  | AnnWord _ _ _ => true
  | _ => false
  end.
Definition has_word (anns : list annotation) : bool := existsb is_word anns.
End Decoder.

(** The rendering of a sequence in the spec's words: a string of dots and
    dashes, dit [.] and dah [-]. *)
Definition literal_dots_dashes (sequence : list Z) : string :=
  string_of_list_ascii (map (fun u => if u =? 1 then "."%char else "-"%char) sequence).

(** In the yielded stream, is every inter-word space [(0, 7)] right after a
    flush?  [after_flush] tells whether the item before the stream was one. *)
Fixpoint word_gaps_flushed (after_flush : bool) (ys : list item) : bool :=
  match ys with
  | [] => true
  | Flush :: ys' => word_gaps_flushed true ys'
  | Sym _ _ sval sunits :: ys' =>
      (negb (symbol_eqb (sval, sunits) (0, 7)) || after_flush)
      && word_gaps_flushed false ys'
  end.

Arguments annotation F : clear implicits.
Arguments classifier F : clear implicits.
Arguments measurement F : clear implicits.
Arguments decoder F : clear implicits.

(** What a flush trigger makes of the letter in progress. *)
Definition resolved_letter (st : letter_state) (letters : list letter_item) : Prop :=
  (sequence st = [] /\ letters = []) \/
  (sequence st <> [] /\
   exists letter, resolve (sequence st) = Ok letter /\
                  letters = [Letter (l_s0 st) (l_s1 st) letter]).

(** What [decode_symbols] can yield: a flush, or a symbol of the table. *)
Definition recognised (it : item) : bool :=
  match it with
  | Flush => true
  | Sym _ _ sval sunits => in_symbols (sval, sunits)
  end.

(** Items that leave the letter in progress open: marks, and spaces of
    less than 3 units.  [mark_units] are the units the marks add to it. *)
Definition continues_letter (it : item) : bool :=
  match it with
  | Flush => false
  | Sym _ _ sval sunits => (sval =? 1) || (sunits <? 3)
  end.

Fixpoint mark_units (its : list item) : list Z :=
  match its with
  | [] => []
  | Flush :: its' => mark_units its'
  | Sym _ _ sval sunits :: its' =>
      if sval =? 1 then sunits :: mark_units its' else mark_units its'
  end.

(** ** A concrete capture

    A 1 kHz capture decoded with the default time unit of 0.1 s (the double
    nearest to it), the first rising edge at sample 0: 100 samples make a
    unit and the skip count is 500. *)

Definition capture_rate : float := 1000%float.
Definition default_timeunit : float := 0x1.999999999999ap-4%float.
Definition capture_start : classifier float := decode_symbols_init default_timeunit 0.

(** The pin falls after 30, 100 or 300 samples: a glitch, a dit, a dah. *)
Definition falls_at (sample : Z) : wait_result :=
  {| val := 0; samplenum := sample; matched_edge := true; matched_skip := false |}.

(** The pin is still high after the 500 samples of the skip. *)
Definition times_out_at (sample : Z) : wait_result :=
  {| val := 1; samplenum := sample; matched_edge := false; matched_skip := true |}.

(** A timeout and a rising edge during a silence. *)
Definition silent_at (sample : Z) : wait_result :=
  {| val := 0; samplenum := sample; matched_edge := false; matched_skip := true |}.
Definition rises_at (sample : Z) : wait_result :=
  {| val := 1; samplenum := sample; matched_edge := true; matched_skip := false |}.

(** The same capture in exact arithmetic: a dit, then a silence of 700
    samples in which the wait times out once. *)
Definition exact_start : classifier Q := decode_symbols_init (1 # 10) 0.
Definition dit_then_silence : list wait_result :=
  [falls_at 100; silent_at 600; rises_at 800].

(** ** Runs of the whole decoder, and what is read off its annotations *)

Section Decoder_runs.
Context {F : Type} `{PyFloat F}.

(** [decode] driven by the host's successive answers: the annotations put
    so far, and the state unless an exception ended the decoder. *)
Fixpoint decoder_run (samplerate : F) (d : decoder F) (evs : list wait_result)
  : list (annotation F) * result (decoder F) :=
  match evs with
  | [] => ([], Ok d)
  | ev :: evs' =>
      let '(anns, next) := decoder_step samplerate d ev in
      match next with
      | Raise e => (anns, Raise e)
      | Ok d' =>
          let '(anns', last) := decoder_run samplerate d' evs' in
          ((anns ++ anns')%list, last)
      end
  end.

(** The annotations of rows 0 and 1, put by [decode_symbols]. *)
Definition is_raw (a : annotation F) : bool :=
  match a with
  | AnnTime _ _ _ | AnnUnits _ _ _ _ => true
  | AnnLetter _ _ _ | AnnWord _ _ _ => false
  end.

(** Does a letter or word annotation carry two sample numbers, not [None]? *)
Definition stamped (a : annotation F) : bool :=
  match a with
  | AnnLetter (Some _) (Some _) _ | AnnWord (Some _) (Some _) _ => true
  | AnnLetter _ _ _ | AnnWord _ _ _ => false
  | AnnTime _ _ _ | AnnUnits _ _ _ _ => true
  end.

(** The texts of the letter annotations, and of the word annotations, in
    the order they were put. *)
Fixpoint letters_text (anns : list (annotation F)) : string :=
  match anns with
  | [] => ""
  | AnnLetter _ _ letter :: anns' => (letter ++ letters_text anns')%string
  | _ :: anns' => letters_text anns'
  end.

Fixpoint words_text (anns : list (annotation F)) : string :=
  match anns with
  | [] => ""
  | AnnWord _ _ w :: anns' => (w ++ words_text anns')%string
  | _ :: anns' => words_text anns'
  end.

(** Do the raw annotations come in pairs over the same interval, each
    interval starting where the one before ended?  The result is where the
    last one ends. *)
Fixpoint tiles (start : Z) (anns : list (annotation F)) : option Z :=
  match anns with
  | [] => Some start
  | AnnTime ss es _ :: AnnUnits ss' es' _ _ :: anns' =>
      if (ss =? start) && (ss' =? ss) && (es' =? es) then tiles es anns' else None
  | _ => None
  end.
End Decoder_runs.

(** What holds of the groupers between two items: the marks accumulated
    are dits and dahs, and a letter or a word in progress has its two sample
    numbers. *)
Definition grouper_inv (g : grouper) : Prop :=
  ditdah_seq (sequence (g_letters g)) /\
  (sequence (g_letters g) <> [] ->
   l_s0 (g_letters g) <> None /\ l_s1 (g_letters g) <> None) /\
  (word (g_words g) <> "" ->
   w_s0 (g_words g) <> None /\ w_s1 (g_words g) <> None).

(** What a run of recognised items keeps of the groupers [g]: their
    invariant, letter and word annotations with their sample numbers, no raw
    annotation, and every letter put found in a word put or in the buffer. *)
Definition step_kept {F : Type} (g : grouper) (anns : list (annotation F))
           (g' : grouper) : Prop :=
  grouper_inv g' /\
  forallb stamped anns = true /\
  filter is_raw anns = [] /\
  (word (g_words g) ++ letters_text anns)%string
  = (words_text anns ++ word (g_words g'))%string.

(** The texts of the letters yielded by [decode_morse], in order. *)
Fixpoint letter_texts (letters : list letter_item) : list string :=
  match letters with
  | [] => []
  | LFlush :: letters' => letter_texts letters'
  | Letter _ _ text :: letters' => text :: letter_texts letters'
  end.

(** [chunks] resolve, one by one, to [texts]. *)
Definition resolved_from (chunks : list (list Z)) (texts : list string) : Prop :=
  Forall2 (fun chunk text => chunk <> [] /\ resolve chunk = Ok text) chunks texts.

(** [q] to the power [k]. *)
Fixpoint Qpow (q : Q) (k : nat) : Q :=
  match k with
  | O => 1
  | S k' => q * Qpow q k'
  end.

(** A string of dots and dashes only. *)
Fixpoint is_dots_dashes (s : string) : bool :=
  match s with
  | EmptyString => true
  | String c s' => (Ascii.eqb c "-" || Ascii.eqb c ".") && is_dots_dashes s'
  end.

(** * Properties *)

(** ** Dits and dahs *)

Lemma seq_eqb_eq (a b : list Z) : seq_eqb a b = true <-> a = b.
Proof.
  revert b; induction a as [|x a IH]; intros [|y b]; simpl;
    try (split; [discriminate | congruence]); try tauto.
  rewrite andb_true_iff, Z.eqb_eq, IH.
  split; [intros [-> ->]; reflexivity | intros E; injection E; auto].
Qed.

Lemma encode_ditdah_cons (u : Z) (tpl : list Z) (s : string) :
  is_ditdah u -> encode_ditdah tpl = Ok s ->
  encode_ditdah (u :: tpl) = Ok (String (if u =? 1 then "."%char else "-"%char) s).
Proof.
  intros [-> | ->] E; simpl; rewrite E; reflexivity.
Qed.

Lemma encode_ditdah_total (tpl : list Z) :
  ditdah_seq tpl -> encode_ditdah tpl = Ok (literal_dots_dashes tpl).
Proof.
  induction 1 as [|u tpl Hu _ IH]; [reflexivity|].
  rewrite (encode_ditdah_cons u tpl _ Hu IH); reflexivity.
Qed.

Lemma decode_literal (tpl : list Z) :
  ditdah_seq tpl -> decode_ditdah (literal_dots_dashes tpl) = Ok tpl.
Proof.
  induction 1 as [|u tpl [-> | ->] _ IH]; [reflexivity| |];
    unfold literal_dots_dashes in *; simpl; rewrite IH; reflexivity.
Qed.

(** C7: for every tuple whose elements are all 1 or 3, [encode_ditdah]
    returns a string, and [decode_ditdah] of that string returns the
    tuple. *)
Theorem C7_decode_encode_roundtrip (t : list Z) :
  ditdah_seq t ->
  exists s, encode_ditdah t = Ok s /\ decode_ditdah s = Ok t.
Proof.
  intros Ht. exists (literal_dots_dashes t).
  split; [apply encode_ditdah_total | apply decode_literal]; exact Ht.
Qed.

Lemma C7_roundtrip_witness :
  ditdah_seq [3; 1; 3; 1] /\
  exists s, encode_ditdah [3; 1; 3; 1] = Ok s /\ decode_ditdah s = Ok [3; 1; 3; 1].
Proof.
  assert (Ht : ditdah_seq [3; 1; 3; 1])
    by (repeat constructor; unfold is_ditdah; lia).
  split; [exact Ht | exact (C7_decode_encode_roundtrip [3; 1; 3; 1] Ht)].
Defined.

(** Outside of 1 and 3 the rendering raises. *)
Lemma encode_ditdah_raises (tpl : list Z) :
  ~ ditdah_seq tpl -> encode_ditdah tpl = Raise KeyError.
Proof.
  induction tpl as [|u tpl IH]; intros Hn; [destruct Hn; constructor|].
  simpl. unfold char_of_ditdah.
  destruct (Z.eqb_spec u 1) as [->|H1]; [|destruct (Z.eqb_spec u 3) as [->|H3]];
    try reflexivity;
    (rewrite IH; [reflexivity|]; intros Ht; apply Hn; constructor;
     [unfold is_ditdah; auto | exact Ht]).
Qed.

(** ** The symbol table *)

Lemma in_symbols_iff (pval iunits : Z) :
  in_symbols (pval, iunits) = true <->
  In (pval, iunits) [(1, 1); (1, 3); (0, 1); (0, 3); (0, 7)].
Proof.
  unfold in_symbols, symbols, symbol_eqb; cbn [existsb fst snd].
  rewrite !orb_true_iff, !andb_true_iff, !Z.eqb_eq.
  cbn [In]. split.
  - intros [[<- <-]|[[<- <-]|[[<- <-]|[[<- <-]|[[<- <-]|H]]]]];
      auto 10; discriminate.
  - intros [E|[E|[E|[E|[E|[]]]]]]; injection E as <- <-; auto 10.
Qed.

(** ** The alphabet *)

(** Every key of the literal is made of dots and dashes, so building the
    table does not raise. *)
Lemma alphabet_built : rekey alphabet_literal = Ok alphabet.
Proof. reflexivity. Qed.

(** No key is bound twice, so the association list reads as the dict. *)
Lemma alphabet_keys_distinct : NoDup (map fst alphabet).
Proof.
  repeat (constructor; [simpl; intuition discriminate|]). constructor.
Qed.

Lemma resolve_ditdah (sequence : list Z) :
  ditdah_seq sequence ->
  resolve sequence =
    Ok (match dict_get alphabet sequence with
        | Some letter => letter
        | None => literal_dots_dashes sequence
        end).
Proof.
  intros Hs. unfold resolve. rewrite (encode_ditdah_total _ Hs). reflexivity.
Qed.

(** The marks of the symbol table are dits and dahs, so the sequence that
    [decode_morse] accumulates from recognised items stays one, and no step
    raises. *)
Lemma decode_morse_step_ditdah (st : letter_state) (it : item) :
  ditdah_seq (sequence st) -> recognised it = true ->
  exists letters st',
    decode_morse_step st it = Ok (letters, st') /\ ditdah_seq (sequence st').
Proof.
  intros Hs Hit.
  assert (Hfl : exists letters st',
             flush_letter st = Ok (letters, st') /\ ditdah_seq (sequence st')).
  { unfold flush_letter. destruct (sequence st) as [|u tpl] eqn:E.
    - exists [], st. rewrite E. split; [reflexivity | constructor].
    - rewrite (resolve_ditdah _ Hs). cbn [bind].
      eexists _, _. split; [reflexivity | constructor]. }
  destruct it as [|t0 t1 sval sunits]; cbn [decode_morse_step].
  - destruct Hfl as (letters & st' & -> & Hs'). cbn [bind fst snd]. eauto.
  - destruct (Z.eqb_spec sval 1) as [->|Hsp].
    + eexists _, _. split; [reflexivity|]. cbn [sequence].
      apply Forall_app. split; [exact Hs|]. constructor; [|constructor].
      cbn [recognised] in Hit. apply in_symbols_iff in Hit.
      unfold is_ditdah. cbn [In] in Hit.
      destruct Hit as [E|[E|[E|[E|[E|[]]]]]]; injection E; intros; lia.
    + destruct (3 <=? sunits); [exact Hfl | eauto].
Qed.

Lemma decode_morse_steps_ditdah (its : list item) :
  forall st : letter_state,
    ditdah_seq (sequence st) -> forallb recognised its = true ->
    exists letters st',
      decode_morse_steps st its = Ok (letters, st') /\ ditdah_seq (sequence st').
Proof.
  induction its as [|it its IH]; intros st Hs Hits; cbn [decode_morse_steps].
  - eauto.
  - cbn [forallb] in Hits. apply andb_true_iff in Hits as [Hit Hits].
    destruct (decode_morse_step_ditdah st it Hs Hit) as (l1 & st1 & -> & Hs1).
    cbn [bind snd fst].
    destruct (IH st1 Hs1 Hits) as (l2 & st2 & -> & Hs2).
    cbn [bind snd fst]. eauto.
Qed.

(** C6: resolving a letter is total.  For every dit/dah sequence it returns
    the mapped character when the sequence is a key of the alphabet, and
    otherwise the string of dots and dashes, [.] for 1 and [-] for 3; and
    every sequence that [decode_morse] accumulates from the symbols of the
    table is a dit/dah sequence, no step of it raising. *)
Theorem C6_resolve_total :
  (forall sequence : list Z,
     ditdah_seq sequence ->
     resolve sequence =
       Ok (match dict_get alphabet sequence with
           | Some letter => letter
           | None => literal_dots_dashes sequence
           end)) /\
  (forall its : list item,
     forallb recognised its = true ->
     exists letters st,
       decode_morse_steps decode_morse_init its = Ok (letters, st) /\
       ditdah_seq (sequence st)).
Proof.
  split.
  - exact resolve_ditdah.
  - intros its Hits. apply decode_morse_steps_ditdah; [constructor | exact Hits].
Qed.

Lemma C6_resolve_witness :
  resolve [1; 3; 1; 3] = Ok ".-.-" /\
  exists letters st,
    decode_morse_steps decode_morse_init [Sym 0 100 1 1; Sym 100 200 0 1; Sym 200 500 1 3]
    = Ok (letters, st) /\ ditdah_seq (sequence st).
Proof.
  destruct C6_resolve_total as [Hresolve Hsteps].
  split.
  - apply (Hresolve [1; 3; 1; 3]). repeat constructor; unfold is_ditdah; lia.
  - apply (Hsteps [Sym 0 100 1 1; Sym 100 200 0 1; Sym 200 500 1 3]). reflexivity.
Defined.

(** Each entry of the literal is found again under its decoded key. *)
Lemma alphabet_literal_resolved :
  forallb (fun kv => match decode_ditdah (fst kv) with
                     | Ok k => match resolve k with
                               | Ok letter => String.eqb letter (snd kv)
                               | Raise _ => false
                               end
                     | Raise _ => false
                     end) alphabet_literal = true.
Proof. vm_compute. reflexivity. Qed.

Lemma dict_get_In {V : Type} (tbl : list (list Z * V)) (key : list Z) (v : V) :
  dict_get tbl key = Some v -> In v (map snd tbl).
Proof.
  induction tbl as [|[k w] tbl IH]; simpl; [discriminate|].
  destruct (seq_eqb k key); [intros [= ->]; auto | auto].
Qed.

Lemma alphabet_letters_nonempty (letter : string) :
  In letter (map snd alphabet) -> letter <> "".
Proof.
  intros Hin E; subst letter. revert Hin. simpl. intuition discriminate.
Qed.

(** A letter resolved from a non-empty sequence is a non-empty string. *)
Lemma resolve_nonempty (sequence : list Z) (letter : string) :
  sequence <> [] -> resolve sequence = Ok letter -> letter <> "".
Proof.
  intros Hne. unfold resolve.
  destruct (encode_ditdah sequence) as [fallback|] eqn:E; cbn [bind]; [|discriminate].
  pose proof (dict_get_In alphabet sequence) as G.
  destruct (dict_get alphabet sequence) as [l|]; intros [= <-].
  - apply alphabet_letters_nonempty, G; reflexivity.
  - destruct sequence as [|u tpl]; [congruence|].
    simpl in E. destruct (char_of_ditdah u); simpl in E; [|discriminate].
    destruct (encode_ditdah tpl); simpl in E; [|discriminate].
    injection E as <-. discriminate.
Qed.

(** ** [decode_symbols]: one interval *)

Section Interval.
Context {F : Type} `{PyFloat F}.

(** The classifier's state, the host's answer, and the values that lines
    170 to 177 compute from them without raising. *)
Variables (samplerate : F) (st : classifier F) (ev : wait_result).
Variables (skip iunits : Z) (dt units fiunits : F).

Hypothesis skip_computed : skip_count samplerate (timeunit st) = Ok skip.
Hypothesis dt_computed :
  int_truediv (samplenum ev - prevtime st) samplerate = Ok dt.
Hypothesis units_computed : truediv dt (timeunit st) = Ok units.
Hypothesis units_rounded : py_round units = Ok iunits.
Hypothesis iunits_converted : float_of_int iunits = Ok fiunits.

Lemma measure_computed :
  measure samplerate st ev =
    Ok {| m_skip := skip; m_pval := 1 - val ev; m_curtime := samplenum ev;
          m_dt := dt; m_units := units; m_iunits := iunits;
          m_error := fabs (fsub units fiunits) |}.
Proof.
  unfold measure, sub_int.
  rewrite skip_computed; simpl. rewrite dt_computed; simpl.
  rewrite units_computed; simpl. rewrite units_rounded; simpl.
  rewrite iunits_converted; reflexivity.
Qed.

(** C3: for an interval ended by an edge, the raw-duration and
    unit-duration annotations are put whatever the classification, and a
    symbol is yielded if and only if (previous level, rounded units) is
    one of (1,1), (1,3), (0,1), (0,3), (0,7); it is then that pair with
    the interval's two timestamps. *)
Theorem C3_symbol_forwarded_iff_recognized :
  matched_skip ev = false ->
  let r := decode_symbols_step samplerate st ev in
  put_by r = [AnnTime (prevtime st) (samplenum ev) dt;
              AnnUnits (prevtime st) (samplenum ev) units (timeunit st)] /\
  (In (1 - val ev, iunits) [(1, 1); (1, 3); (0, 1); (0, 3); (0, 7)] ->
   yielded_by r = [Sym (prevtime st) (samplenum ev) (1 - val ev) iunits]) /\
  (~ In (1 - val ev, iunits) [(1, 1); (1, 3); (0, 1); (0, 3); (0, 7)] ->
   yielded_by r = []).
Proof.
  intros Hedge r; subst r. unfold decode_symbols_step.
  rewrite measure_computed, Hedge; cbn [put_by yielded_by fst snd
    m_pval m_curtime m_dt m_units m_iunits].
  split; [reflexivity|]. split; intros Hin.
  - apply in_symbols_iff in Hin. rewrite Hin. reflexivity.
  - destruct (in_symbols (1 - val ev, iunits)) eqn:E; [|reflexivity].
    apply in_symbols_iff in E. contradiction.
Qed.

(** C9: when the skip condition matched, the iteration yields one flush
    marker and nothing else happens: no annotation is put, and the
    reference point and the time unit are those of before. *)
Theorem C9_timeout_yields_flush_only :
  matched_skip ev = true ->
  decode_symbols_step samplerate st ev = ([], [Flush], Ok st).
Proof.
  intros Hskip. unfold decode_symbols_step.
  rewrite measure_computed, Hskip. reflexivity.
Qed.

(** C8: after an interval ended by an edge, with [iunits] not zero, the
    reference point is the edge and the time unit is
    [old + (dt / iunits - old) * 0.02 * iunits], with [dt] the interval in
    seconds and [iunits] its rounded unit count; after a timeout the time
    unit is the old one. *)
Theorem C8_adaptive_update :
  fzerob fiunits = false ->
  (matched_skip ev = false ->
   next_of (decode_symbols_step samplerate st ev) =
     Ok {| prevtime := samplenum ev;
           timeunit :=
             fadd (timeunit st)
                  (fmul (fmul (fsub (fquot dt fiunits) (timeunit st)) lit_0_02)
                        fiunits) |}) /\
  (matched_skip ev = true ->
   next_of (decode_symbols_step samplerate st ev) = Ok st).
Proof.
  intros Hnz. unfold decode_symbols_step. rewrite measure_computed.
  split; intros ->; [|reflexivity].
  cbn [next_of snd]. unfold adapt, truediv_int, mul_int, truediv.
  cbn [m_dt m_iunits m_curtime]. rewrite iunits_converted; cbn [bind].
  rewrite Hnz. reflexivity.
Qed.

(** With [iunits] zero the adaptation divides by zero: the generator is
    left by [ZeroDivisionError], the two annotations being put already. *)
Lemma zero_units_raises :
  fzerob fiunits = true ->
  matched_skip ev = false ->
  next_of (decode_symbols_step samplerate st ev) = Raise ZeroDivisionError.
Proof.
  intros Hz Hedge. unfold decode_symbols_step.
  rewrite measure_computed, Hedge.
  cbn [next_of snd]. unfold adapt, truediv_int, truediv.
  cbn [m_dt m_iunits]. rewrite iunits_converted; cbn [bind]. rewrite Hz. reflexivity.
Qed.
End Interval.

(** *** The three theorems on the concrete capture *)

Lemma C3_symbol_forwarded_witness :
  let r := decode_symbols_step capture_rate capture_start (falls_at 300) in
  put_by r = [AnnTime 0 300 (300 / 1000)%float;
              AnnUnits 0 300 (300 / 1000 / default_timeunit)%float default_timeunit] /\
  (In (1 - 0, 3) [(1, 1); (1, 3); (0, 1); (0, 3); (0, 7)] ->
   yielded_by r = [Sym 0 300 (1 - 0) 3]) /\
  (~ In (1 - 0, 3) [(1, 1); (1, 3); (0, 1); (0, 3); (0, 7)] ->
   yielded_by r = []).
Proof.
  apply (C3_symbol_forwarded_iff_recognized capture_rate capture_start (falls_at 300)
           500 3 (300 / 1000)%float (300 / 1000 / default_timeunit)%float 3%float);
    vm_compute; reflexivity.
Defined.

Lemma C9_timeout_witness :
  decode_symbols_step capture_rate capture_start (times_out_at 500)
  = ([], [Flush], Ok capture_start).
Proof.
  apply (C9_timeout_yields_flush_only capture_rate capture_start (times_out_at 500)
           500 5 (500 / 1000)%float (500 / 1000 / default_timeunit)%float 5%float);
    vm_compute; reflexivity.
Defined.

Lemma C8_adaptive_update_witness :
  next_of (decode_symbols_step capture_rate capture_start (falls_at 300))
  = Ok {| prevtime := 300;
          timeunit := (default_timeunit
                       + (300 / 1000 / 3 - default_timeunit) * 0x1.47ae147ae147bp-6 * 3)%float |}.
Proof.
  refine (proj1 (C8_adaptive_update capture_rate capture_start (falls_at 300)
                   500 3 (300 / 1000)%float (300 / 1000 / default_timeunit)%float
                   3%float _ _ _ _ _ _) _);
    vm_compute; reflexivity.
Defined.

(** C1: the rounded unit count is not at least 1 for every interval.  A
    pulse of 30 samples is 0.3 units and rounds to 0; the raw and unit
    annotations are put, nothing is yielded, and the adaptation's
    [dt / iunits] raises [ZeroDivisionError], with [dt] and the time unit
    both positive. *)
Theorem C1_short_interval_divides_by_zero :
  exists m,
    measure capture_rate capture_start (falls_at 30) = Ok m /\
    PrimFloat.ltb 0 (m_dt m) = true /\
    PrimFloat.ltb 0 (timeunit capture_start) = true /\
    m_iunits m = 0 /\
    decode_symbols_step capture_rate capture_start (falls_at 30)
    = ([AnnTime 0 30 (m_dt m); AnnUnits 0 30 (m_units m) default_timeunit],
       [], Raise ZeroDivisionError).
Proof.
  eexists. split; [vm_compute; reflexivity|].
  repeat split; vm_compute; reflexivity.
Qed.

(** ** [decode_morse]: flush triggers *)

Lemma flush_letter_empty (st : letter_state) :
  sequence st = [] -> flush_letter st = Ok ([], st).
Proof. unfold flush_letter; intros ->; reflexivity. Qed.

Lemma flush_letter_resolved (st : letter_state) :
  ditdah_seq (sequence st) -> sequence st <> [] ->
  exists letter,
    resolve (sequence st) = Ok letter /\ letter <> "" /\
    flush_letter st = Ok ([Letter (l_s0 st) (l_s1 st) letter], decode_morse_init).
Proof.
  intros Hs Hne.
  assert (Hr : exists letter, resolve (sequence st) = Ok letter).
  { unfold resolve. rewrite (encode_ditdah_total _ Hs). eexists; reflexivity. }
  destruct Hr as [letter Hr]. exists letter.
  split; [exact Hr|]. split; [exact (resolve_nonempty _ _ Hne Hr)|].
  unfold flush_letter. destruct (sequence st); [congruence|].
  rewrite Hr; reflexivity.
Qed.



(** ** [decode]: nothing in progress *)

Section Nothing_in_progress.
Context {F : Type} `{PyFloat F}.

Lemma group_flush_nothing (g : grouper) :
  sequence (g_letters g) = [] -> word (g_words g) = "" ->
  group_run g [Flush] = Ok (@nil (annotation F), g).
Proof.
  intros Hs Hw. destruct g as [ls ws]; simpl in *.
  unfold group_step; cbn [g_letters g_words decode_morse_step].
  rewrite (flush_letter_empty ls Hs); cbn [bind fst snd app decode_steps decode_step].
  rewrite Hw. reflexivity.
Qed.

(** C5: with no dit or dah accumulated, a flush trigger (a space of 3
    units or more, or a flush marker) yields no letter; with no letter
    accumulated, a flush marker puts no word annotation; so a timeout of
    the whole decoder with nothing in progress puts no annotation at all
    and changes no state. *)
Theorem C5_empty_flush_absorbed :
  (forall st : letter_state, sequence st = [] ->
     decode_morse_step st Flush = Ok ([LFlush], st) /\
     forall t0 t1 sval sunits, sval <> 1 -> 3 <= sunits ->
       decode_morse_step st (Sym t0 t1 sval sunits) = Ok ([], st)) /\
  (forall ws : word_state, word ws = "" ->
     decode_step ws LFlush = (@nil (annotation F), ws)) /\
  (forall (samplerate : F) (d : decoder F) (ev : wait_result) (m : measurement F),
     measure samplerate (d_symbols d) ev = Ok m ->
     matched_skip ev = true ->
     sequence (g_letters (d_groups d)) = [] ->
     word (g_words (d_groups d)) = "" ->
     decoder_step samplerate d ev = ([], Ok d)).
Proof.
  split; [|split].
  - intros st Hs. unfold decode_morse_step.
    rewrite (flush_letter_empty st Hs). split; [reflexivity|].
    intros t0 t1 sval sunits Hsp Hlong.
    destruct (Z.eqb_spec sval 1); [contradiction|].
    destruct (Z.leb_spec 3 sunits); [reflexivity | lia].
  - intros ws Hw. unfold decode_step. rewrite Hw. reflexivity.
  - intros samplerate d ev m Hm Hskip Hs Hw.
    unfold decoder_step, decode_symbols_step. rewrite Hm, Hskip.
    rewrite (group_flush_nothing _ Hs Hw). destruct d; reflexivity.
Qed.
End Nothing_in_progress.

Lemma C5_empty_flush_witness :
  decode_morse_step decode_morse_init Flush = Ok ([LFlush], decode_morse_init) /\
  decode_step decode_init LFlush = (@nil (annotation float), decode_init) /\
  decoder_step capture_rate (decoder_init default_timeunit 0) (times_out_at 500)
  = ([], Ok (decoder_init default_timeunit 0)).
Proof.
  destruct (@C5_empty_flush_absorbed float binary64) as (Hletters & Hwords & Hdecoder).
  split; [apply (Hletters decode_morse_init); reflexivity|].
  split; [apply (Hwords decode_init); reflexivity|].
  eapply (Hdecoder capture_rate (decoder_init default_timeunit 0) (times_out_at 500));
    vm_compute; reflexivity.
Defined.

(** ** Letters into words *)

Lemma append_empty (s : string) : (s ++ "")%string = s.
Proof. induction s as [|c s IH]; simpl; [|rewrite IH]; reflexivity. Qed.

Lemma append_nonempty (s letter : string) : letter <> "" -> (s ++ letter)%string <> "".
Proof. destruct s; simpl; [auto | discriminate]. Qed.

Section Words.
Context {F : Type}.

Lemma group_run_app (g : grouper) (its its' : list item) :
  @group_run F g (its ++ its') =
    (r <- group_run g its ;;
     r' <- group_run (snd r) its' ;;
     Ok ((fst r ++ fst r')%list, snd r')).
Proof.
  revert g; induction its as [|it its IH]; intros g; cbn [app group_run].
  - cbn [bind snd fst]. destruct (group_run g its') as [[a g']|]; reflexivity.
  - destruct (group_step g it) as [[a g1]|]; cbn [bind snd fst]; [|reflexivity].
    rewrite IH.
    destruct (group_run g1 its) as [[a2 g2]|]; cbn [bind snd fst]; [|reflexivity].
    destruct (group_run g2 its') as [[a3 g3]|]; cbn [bind snd fst]; [|reflexivity].
    rewrite app_assoc. reflexivity.
Qed.

(** Marks and short spaces only add units to the letter in progress. *)
Lemma letter_body_accumulates (its : list item) (g : grouper) :
  forallb continues_letter its = true ->
  exists ls,
    @group_run F g its = Ok ([], {| g_letters := ls; g_words := g_words g |}) /\
    sequence ls = (sequence (g_letters g) ++ mark_units its)%list.
Proof.
  revert g; induction its as [|it its IH]; intros g Hb.
  - exists (g_letters g). destruct g; simpl. rewrite app_nil_r. auto.
  - cbn [forallb] in Hb. apply andb_true_iff in Hb as [Hit Hb].
    destruct it as [|t0 t1 sval sunits]; [discriminate|].
    cbn [continues_letter] in Hit. cbn [group_run mark_units].
    unfold group_step; cbn [decode_morse_step].
    destruct (Z.eqb_spec sval 1) as [->|Hsp].
    + cbn [bind fst snd decode_steps].
      destruct (IH {| g_letters := {| sequence := sequence (g_letters g) ++ [sunits];
                                      l_s0 := match l_s0 (g_letters g) with
                                              | None => Some t0
                                              | Some s => Some s
                                              end;
                                      l_s1 := Some t1 |};
                      g_words := g_words g |} Hb) as (ls & Hrun & Hseq).
      exists ls. rewrite Hrun. cbn [bind fst snd app g_words].
      split; [reflexivity|].
      rewrite Hseq. cbn [g_letters sequence]. rewrite <- app_assoc. reflexivity.
    + cbn [orb] in Hit. apply Z.ltb_lt in Hit.
      destruct (Z.leb_spec 3 sunits); [lia|].
      cbn [bind fst snd decode_steps].
      destruct (IH {| g_letters := g_letters g; g_words := g_words g |} Hb)
        as (ls & Hrun & Hseq).
      exists ls. rewrite Hrun. cbn [bind fst snd app g_words]. auto.
Qed.
End Words.

Section Word_closing.
Context {F : Type}.

(** A letter handed to [decode] is annotated and appended; no word is put. *)
Lemma decode_letter (ws : word_state) (t0 t1 : option Z) (letter : string) :
  @decode_steps F ws [Letter t0 t1 letter] =
    ([AnnLetter t0 t1 letter],
     {| word := (word ws ++ letter)%string;
        w_s0 := match w_s0 ws with None => t0 | Some s => Some s end;
        w_s1 := t1 |}).
Proof. reflexivity. Qed.

(** One item through both groupers. *)
Lemma group_step_cases (g : grouper) (it : item) :
  ditdah_seq (sequence (g_letters g)) ->
  exists anns g',
    @group_step F g it = Ok (anns, g') /\
    (has_word anns = true <->
     it = Flush /\ (sequence (g_letters g) <> [] \/ word (g_words g) <> "")) /\
    (has_word anns = true -> g_words g' = decode_init) /\
    (has_word anns = false ->
     exists suffix, word (g_words g') = (word (g_words g) ++ suffix)%string).
Proof.
  intros Hs. destruct g as [ls ws]; cbn [g_letters g_words] in *.
  unfold group_step; cbn [g_letters g_words].
  destruct (list_eq_dec Z.eq_dec (sequence ls) []) as [E|Hne].
  - (* no letter in progress *)
    pose proof (flush_letter_empty ls E) as Hfl.
    destruct it as [|t0 t1 sval sunits]; cbn [decode_morse_step].
    + rewrite Hfl; cbn [bind fst snd app decode_steps decode_step].
      destruct (word ws) as [|c w] eqn:Ew.
      * eexists _, _. split; [reflexivity|]. cbn [has_word existsb g_words].
        repeat split; try discriminate.
        -- intros [_ [Hx|Hx]]; congruence.
        -- intros _. exists ""%string. rewrite Ew. reflexivity.
      * eexists _, _. split; [reflexivity|].
        cbn [has_word existsb is_word orb g_words].
        repeat split; try discriminate. right; discriminate.
    + destruct (sval =? 1).
      * eexists _, _. split; [reflexivity|].
        cbn [fst snd decode_steps has_word existsb g_words word].
        repeat split; try discriminate.
        -- intros [Hx _]; discriminate.
        -- intros _. exists ""%string. rewrite append_empty. reflexivity.
      * assert (Hsame : (if 3 <=? sunits then flush_letter ls else Ok ([], ls))
                        = Ok ([], ls)) by (destruct (3 <=? sunits); auto).
        rewrite Hsame. eexists _, _. split; [reflexivity|].
        cbn [fst snd decode_steps has_word existsb g_words word].
        repeat split; try discriminate.
        -- intros [Hx _]; discriminate.
        -- intros _. exists ""%string. rewrite append_empty. reflexivity.
  - (* a letter in progress *)
    destruct (flush_letter_resolved ls Hs Hne) as (letter & _ & Hletter & Hfl).
    destruct it as [|t0 t1 sval sunits]; cbn [decode_morse_step].
    + rewrite Hfl; cbn [bind fst snd app decode_steps decode_step].
      pose proof (append_nonempty (word ws) letter Hletter) as Hw.
      destruct (word ws ++ letter)%string as [|c w] eqn:Ew; [congruence|].
      cbn [word].
      eexists _, _. split; [reflexivity|].
      cbn [has_word existsb is_word orb app g_words].
      repeat split; try discriminate. left; exact Hne.
    + destruct (sval =? 1).
      * eexists _, _. split; [reflexivity|].
        cbn [fst snd decode_steps has_word existsb g_words word].
        repeat split; try discriminate.
        -- intros [Hx _]; discriminate.
        -- intros _. exists ""%string. rewrite append_empty. reflexivity.
      * destruct (3 <=? sunits).
        -- rewrite Hfl; cbn [bind fst snd]. rewrite decode_letter.
           eexists _, _. split; [reflexivity|].
           cbn [has_word existsb is_word orb g_words word].
           repeat split; try discriminate.
           ++ intros [Hx _]; discriminate.
           ++ intros _. exists letter. reflexivity.
        -- eexists _, _. split; [reflexivity|].
           cbn [fst snd decode_steps has_word existsb g_words word].
           repeat split; try discriminate.
           ++ intros [Hx _]; discriminate.
           ++ intros _. exists ""%string. rewrite append_empty. reflexivity.
Qed.
End Word_closing.

Section Same_word.
Context {F : Type}.

Variables (body1 body2 : list item) (t0 t1 : Z).
Hypothesis body1_open : forallb continues_letter body1 = true.
Hypothesis body2_open : forallb continues_letter body2 = true.
Hypothesis body1_ditdah : ditdah_seq (mark_units body1).
Hypothesis body2_ditdah : ditdah_seq (mark_units body2).
Hypothesis body1_marks : mark_units body1 <> [].
Hypothesis body2_marks : mark_units body2 <> [].

(** Two letters with an inter-letter space between them, then a flush:
    two letter annotations and one word annotation of both letters. *)
Lemma two_letters_one_word :
  exists letter1 letter2 a1 b1 a2 b2 a b,
    resolve (mark_units body1) = Ok letter1 /\
    resolve (mark_units body2) = Ok letter2 /\
    @group_run F grouper_init (body1 ++ Sym t0 t1 0 3 :: body2 ++ [Flush]) =
      Ok ([AnnLetter a1 b1 letter1; AnnLetter a2 b2 letter2;
           AnnWord a b (letter1 ++ letter2)%string],
          grouper_init).
Proof.
  destruct (letter_body_accumulates (F := F) body1 grouper_init body1_open)
    as (ls1 & Hrun1 & Hseq1).
  cbn [grouper_init g_letters g_words decode_morse_init sequence app] in Hrun1, Hseq1.
  assert (Hd1 : ditdah_seq (sequence ls1)) by (rewrite Hseq1; exact body1_ditdah).
  assert (Hn1 : sequence ls1 <> []) by (rewrite Hseq1; exact body1_marks).
  destruct (flush_letter_resolved ls1 Hd1 Hn1) as (letter1 & Hr1 & Hl1 & Hfl1).
  set (ws1 := {| word := letter1; w_s0 := l_s0 ls1; w_s1 := l_s1 ls1 |}).
  destruct (letter_body_accumulates (F := F) body2
              {| g_letters := decode_morse_init; g_words := ws1 |} body2_open)
    as (ls2 & Hrun2 & Hseq2).
  cbn [g_letters g_words decode_morse_init sequence app] in Hrun2, Hseq2.
  assert (Hd2 : ditdah_seq (sequence ls2)) by (rewrite Hseq2; exact body2_ditdah).
  assert (Hn2 : sequence ls2 <> []) by (rewrite Hseq2; exact body2_marks).
  destruct (flush_letter_resolved ls2 Hd2 Hn2) as (letter2 & Hr2 & Hl2 & Hfl2).
  exists letter1, letter2, (l_s0 ls1), (l_s1 ls1), (l_s0 ls2), (l_s1 ls2).
  exists (match l_s0 ls1 with None => l_s0 ls2 | Some s => Some s end), (l_s1 ls2).
  rewrite <- Hseq1, <- Hseq2. split; [exact Hr1|]. split; [exact Hr2|].
  rewrite group_run_app, Hrun1. cbn [bind fst snd app].
  change (Sym t0 t1 0 3 :: body2 ++ [Flush])%list
    with ([Sym t0 t1 0 3] ++ (body2 ++ [Flush]))%list.
  rewrite group_run_app.
  assert (Hgap : @group_run F {| g_letters := ls1; g_words := decode_init |}
                   [Sym t0 t1 0 3]
                 = Ok ([AnnLetter (l_s0 ls1) (l_s1 ls1) letter1],
                       {| g_letters := decode_morse_init; g_words := ws1 |})).
  { cbn [group_run]. unfold group_step.
    cbn [g_letters g_words decode_morse_step Z.eqb Z.leb Z.compare Pos.compare
         Pos.compare_cont].
    rewrite Hfl1. reflexivity. }
  rewrite Hgap. cbn [bind fst snd app].
  rewrite group_run_app, Hrun2. cbn [bind fst snd app].
  cbn [group_run]. unfold group_step. cbn [g_letters g_words decode_morse_step].
  rewrite Hfl2. cbn [bind fst snd app decode_steps decode_step ws1 word w_s0 w_s1].
  destruct letter1 as [|c s]; [congruence|]. reflexivity.
Qed.
End Same_word.




(** The same on a stream: the letters on either side of the 7-unit space
    symbol are put as one word by the flush that follows. *)
Example word_gap_symbol_stream :
  @group_run Q grouper_init [Sym 0 100 1 1; Sym 100 800 0 7; Sym 800 900 1 1; Flush]
  = Ok ([AnnLetter (Some 0) (Some 100) "e"; AnnLetter (Some 800) (Some 900) "e";
         AnnWord (Some 0) (Some 900) "ee"], grouper_init).
Proof. reflexivity. Qed.

(** ** Timeouts come before inter-word spaces

    From here on the arithmetic is the exact one. *)

Lemma round_half_even_7 (n d : Z) :
  0 < d -> round_half_even n d = 7 -> 13 * d <= 2 * n.
Proof.
  intros Hd. unfold round_half_even.
  pose proof (Z.div_mod n d ltac:(lia)) as Hn.
  pose proof (Z.mod_pos_bound n d Hd) as Hr.
  destruct (Z.compare_spec (2 * (n mod d)) d) as [E|L|G].
  - destruct (Z.even (n / d)) eqn:Ev; intros Hfl.
    + rewrite Hfl in Ev. discriminate Ev.
    + assert (n / d = 6) as Hq by lia. rewrite Hq in Ev. discriminate Ev.
  - intros Hfl. nia.
  - intros Hfl. nia.
Qed.

Lemma Qtrunc_below (q : Q) : 0 < Qtrunc q -> (inject_Z (Qtrunc q) <= q)%Q.
Proof.
  unfold Qtrunc, Qle; destruct q as [n d]; cbn [Qnum Qden inject_Z]. intros Hpos.
  assert (0 <= n) as Hn.
  { destruct (Z.le_gt_cases 0 n) as [|Hneg]; [assumption|].
    pose proof (Z.quot_opp_l n (Z.pos d) ltac:(lia)) as Ho.
    pose proof (Z.quot_pos (- n) (Z.pos d) ltac:(lia) ltac:(lia)). lia. }
  rewrite Z.quot_div_nonneg by lia.
  pose proof (Z.mul_div_le n (Z.pos d) ltac:(lia)). lia.
Qed.

Lemma exact_nonzero (q : Q) : (Qnum q =? 0) = false -> ~ (q == 0)%Q.
Proof.
  intros Hq E. apply Z.eqb_neq in Hq. apply Hq.
  unfold Qeq in E; cbn in E. lia.
Qed.

(** An interval shorter than a positive skip count is not 7 units. *)
Lemma short_interval_not_7 (samplerate tu : Q) (d n : Z) (dt units : Q) :
  skip_count samplerate tu = Ok n -> 0 < n -> d < n ->
  int_truediv d samplerate = Ok dt ->
  truediv dt tu = Ok units ->
  Qround_half_even units <> 7.
Proof.
  unfold skip_count, int_mul, int_truediv, truediv.
  cbn [float_of_int py_int fmul fquot fzerob exact bind].
  intros [= Hn] Hpos Hd Hdt Hunits Hseven.
  destruct (Qnum samplerate =? 0) eqn:Hsr; [discriminate|]. injection Hdt as <-.
  destruct (Qnum tu =? 0) eqn:Htu; [discriminate|]. injection Hunits as <-.
  apply exact_nonzero in Hsr, Htu.
  assert (Hlow : (13 # 2 <= inject_Z d / samplerate / tu)%Q).
  { apply round_half_even_7 in Hseven; [|reflexivity].
    unfold Qle; cbn [Qnum Qden]. lia. }
  assert (Hskip : (inject_Z n <= inject_Z 5 * samplerate * tu)%Q)
    by (rewrite <- Hn; apply Qtrunc_below; lia).
  assert (Hdn : (inject_Z d < inject_Z n)%Q) by (rewrite <- Zlt_Qlt; exact Hd).
  assert (H1 : (inject_Z 1 <= inject_Z n)%Q) by (rewrite <- Zle_Qle; lia).
  change (inject_Z 1) with 1%Q in H1.
  set (p := (samplerate * tu)%Q) in *.
  assert (Hp5 : (inject_Z 5 * samplerate * tu == 5 * p)%Q) by (unfold p; ring).
  assert (Hdp : (inject_Z d / samplerate / tu * p == inject_Z d)%Q)
    by (unfold p; field; split; assumption).
  assert (Hp : (0 < p)%Q) by (rewrite Hp5 in Hskip; lra).
  pose proof (Qmult_le_compat_r _ _ p Hlow (Qlt_le_weak _ _ Hp)) as Hmul.
  rewrite Hdp in Hmul. rewrite Hp5 in Hskip. lra.
Qed.

Section Runs.
Context {F : Type} `{PyFloat F}.

Lemma measure_inv (samplerate : F) (st : classifier F) (ev : wait_result)
      (m : measurement F) :
  measure samplerate st ev = Ok m ->
  skip_count samplerate (timeunit st) = Ok (m_skip m) /\
  int_truediv (samplenum ev - prevtime st) samplerate = Ok (m_dt m) /\
  truediv (m_dt m) (timeunit st) = Ok (m_units m) /\
  py_round (m_units m) = Ok (m_iunits m) /\
  m_pval m = 1 - val ev /\ m_curtime m = samplenum ev.
Proof.
  unfold measure.
  destruct (skip_count samplerate (timeunit st)) as [skip|] eqn:Hskip;
    [|discriminate].
  destruct (int_truediv (samplenum ev - prevtime st) samplerate) as [dt|] eqn:Hdt;
    [|discriminate].
  cbn [bind].
  destruct (truediv dt (timeunit st)) as [units|] eqn:Hunits; [|discriminate].
  cbn [bind].
  destruct (py_round units) as [iunits|] eqn:Hround; [|discriminate]. cbn [bind].
  destruct (sub_int units iunits) as [e|]; [|discriminate]. cbn [bind].
  intros [= <-]. cbn [m_skip m_dt m_units m_iunits m_pval m_curtime].
  auto 10.
Qed.

Lemma adapt_prevtime (st st' : classifier F) (m : measurement F) :
  adapt st m = Ok st' -> prevtime st' = m_curtime m.
Proof.
  unfold adapt.
  destruct (truediv_int (m_dt m) (m_iunits m)) as [thisunit|]; [|discriminate].
  cbn [bind].
  destruct (mul_int _ (m_iunits m)) as [delta|]; [|discriminate].
  intros [= <-]. reflexivity.
Qed.

Lemma yielded_by_run_cons (samplerate : F) (st : classifier F) (ev : wait_result)
      (evs : list wait_result) :
  yielded_by (decode_symbols_run samplerate st (ev :: evs)) =
    (yielded_by (decode_symbols_step samplerate st ev) ++
     match next_of (decode_symbols_step samplerate st ev) with
     | Ok st' => yielded_by (decode_symbols_run samplerate st' evs)
     | Raise _ => []
     end)%list.
Proof.
  cbn [decode_symbols_run].
  destruct (decode_symbols_step samplerate st ev) as [[anns ys] [st'|e]];
    cbn [yielded_by next_of fst snd].
  - destruct (decode_symbols_run samplerate st' evs) as [[anns' ys'] last].
    reflexivity.
  - rewrite app_nil_r. reflexivity.
Qed.

(** Whatever [decode_symbols] yields is a flush or a symbol of the table. *)
Lemma decode_symbols_yields_recognised (samplerate : F) (st : classifier F)
      (ev : wait_result) :
  forallb recognised (yielded_by (decode_symbols_step samplerate st ev)) = true.
Proof.
  unfold decode_symbols_step.
  destruct (measure samplerate st ev) as [m|e]; [|reflexivity].
  destruct (matched_skip ev); [reflexivity|]. cbn [yielded_by fst snd].
  destruct (in_symbols (m_pval m, m_iunits m)) eqn:E; [|reflexivity].
  cbn [forallb recognised]. rewrite E. reflexivity.
Qed.

Lemma host_in_time_cons (samplerate : F) (pos : Z) (st st' : classifier F)
      (ev : wait_result) (evs : list wait_result) :
  wait_in_time samplerate pos st ev ->
  next_of (decode_symbols_step samplerate st ev) = Ok st' ->
  host_in_time samplerate (samplenum ev) st' evs ->
  host_in_time samplerate pos st (ev :: evs).
Proof.
  intros Hwait Hnext Hrest. cbn [host_in_time]. rewrite Hnext. auto.
Qed.
End Runs.

Lemma word_gaps_flushed_split (ys post : list item) (t0 t1 : Z) (b : bool) :
  word_gaps_flushed b (ys ++ Sym t0 t1 0 7 :: post) = true ->
  (ys = [] /\ b = true) \/ exists ys', ys = (ys' ++ [Flush])%list.
Proof.
  revert b; induction ys as [|y ys IH]; intros b; cbn [app word_gaps_flushed].
  - cbn. rewrite andb_true_iff. intros [Hb _]. left. auto.
  - destruct y as [|a b0 sval sunits].
    + intros Hrest. right. destruct (IH true Hrest) as [[-> _]|[ys' ->]].
      * exists []. reflexivity.
      * exists (Flush :: ys'). reflexivity.
    + rewrite andb_true_iff. intros [_ Hrest]. right.
      destruct (IH false Hrest) as [[_ Hb]|[ys' ->]]; [discriminate|].
      exists (Sym a b0 sval sunits :: ys'). reflexivity.
Qed.

(** An edge right after an edge, the wait being in time, yields no
    inter-word space: the interval is shorter than 5 units. *)
Lemma edge_after_edge_no_word_gap (samplerate : Q) (st : classifier Q)
      (ev : wait_result) (rest : list item) :
  wait_in_time samplerate (prevtime st) st ev ->
  matched_skip ev = false ->
  word_gaps_flushed false
    (yielded_by (decode_symbols_step samplerate st ev) ++ rest) =
  word_gaps_flushed false rest
  \/ exists t0 t1 sval sunits,
       yielded_by (decode_symbols_step samplerate st ev) = [Sym t0 t1 sval sunits] /\
       symbol_eqb (sval, sunits) (0, 7) = false.
Proof.
  intros (n & Hskip & Hpos & Hin) Hedge. specialize (Hin Hedge).
  unfold decode_symbols_step.
  destruct (measure samplerate st ev) as [m|e] eqn:Hm; [|left; reflexivity].
  rewrite Hedge. cbn [yielded_by fst snd].
  destruct (in_symbols (m_pval m, m_iunits m)); [|left; reflexivity].
  right. exists (prevtime st), (m_curtime m), (m_pval m), (m_iunits m).
  split; [reflexivity|].
  apply measure_inv in Hm as (_ & Hdt & Hunits & Hround & _ & _).
  injection Hround as Hround.
  pose proof (short_interval_not_7 _ _ _ _ _ _ Hskip Hpos Hin Hdt Hunits) as Hne.
  unfold symbol_eqb; cbn [fst snd].
  destruct (Z.eqb_spec (m_iunits m) 7) as [E|_]; [congruence|].
  apply andb_false_r.
Qed.

Lemma run_word_gaps_flushed (samplerate : Q) (evs : list wait_result) :
  forall (st : classifier Q) (pos : Z) (b : bool),
    (b = false -> pos = prevtime st) ->
    host_in_time samplerate pos st evs ->
    word_gaps_flushed b (yielded_by (decode_symbols_run samplerate st evs)) = true.
Proof.
  induction evs as [|ev evs IH]; intros st pos b Hb Hhost; [reflexivity|].
  rewrite yielded_by_run_cons. destruct Hhost as [Hwait Hrest].
  destruct (matched_skip ev) eqn:Hskip.
  - (* timeout *)
    unfold decode_symbols_step in *.
    destruct (measure samplerate st ev) as [m|e]; [|reflexivity].
    rewrite Hskip in *. cbn [yielded_by next_of fst snd app word_gaps_flushed] in *.
    apply (IH st (samplenum ev) true); [discriminate | exact Hrest].
  - (* edge *)
    assert (Hnext : forall st', next_of (decode_symbols_step samplerate st ev) = Ok st' ->
                                prevtime st' = samplenum ev).
    { unfold decode_symbols_step.
      destruct (measure samplerate st ev) as [m|e] eqn:Hm; [|discriminate].
      rewrite Hskip. cbn [next_of snd]. intros st' Ha.
      apply adapt_prevtime in Ha. apply measure_inv in Hm. intuition congruence. }
    set (rest := match next_of (decode_symbols_step samplerate st ev) with
                 | Ok st' => yielded_by (decode_symbols_run samplerate st' evs)
                 | Raise _ => []
                 end).
    assert (Hrests : forall b', word_gaps_flushed b' rest = true).
    { intros b'. unfold rest.
      destruct (next_of (decode_symbols_step samplerate st ev)) as [st'|e] eqn:Hn;
        [|reflexivity].
      apply (IH st' (samplenum ev) b'); [|exact Hrest].
      intros _. symmetry. apply Hnext. reflexivity. }
    destruct b.
    + (* the item before was a flush *)
      unfold decode_symbols_step.
      destruct (measure samplerate st ev) as [m|e]; [|apply Hrests].
      rewrite Hskip. cbn [yielded_by fst snd].
      destruct (in_symbols (m_pval m, m_iunits m)); [|apply Hrests].
      cbn [app word_gaps_flushed]. rewrite orb_true_r. apply Hrests.
    + rewrite (Hb eq_refl) in Hwait.
      destruct (edge_after_edge_no_word_gap samplerate st ev rest Hwait Hskip)
        as [->|(t0 & t1 & sval & sunits & -> & Hne)]; [apply Hrests|].
      cbn [app word_gaps_flushed]. rewrite Hne. apply Hrests.
Qed.


Lemma dit_then_silence_in_time :
  host_in_time (1000 # 1) (prevtime exact_start) exact_start dit_then_silence.
Proof.
  unfold dit_then_silence.
  repeat (eapply host_in_time_cons;
          [ exists 500; split; [vm_compute; reflexivity|];
            split; [lia | intros Hedge; first [discriminate Hedge | vm_compute; reflexivity]]
          | vm_compute; reflexivity
          | ]).
  exact I.
Defined.


(** * Further properties of the code *)

(** ** [decode_ditdah] and [encode_ditdah] on every input *)

Lemma ditdah_seq_dec (tpl : list Z) : {ditdah_seq tpl} + {~ ditdah_seq tpl}.
Proof.
  apply Forall_dec. intros u. unfold is_ditdah.
  destruct (Z.eq_dec u 1); [left; auto|].
  destruct (Z.eq_dec u 3); [left; auto | right; intros [|]; contradiction].
Defined.

Lemma decode_ditdah_cons (c : ascii) (s : string) :
  decode_ditdah (String c s) =
    (u <- ditdah_of_char c ;; us <- decode_ditdah s ;; Ok (u :: us)).
Proof. reflexivity. Qed.

(** X1: [decode_ditdah] returns on the strings of dots and dashes and on no
    other: there the tuple is made of 1 and 3 and [encode_ditdah] gives the
    string back; on any other string it raises [KeyError]. *)
Theorem decode_ditdah_cases (s : string) :
  match decode_ditdah s with
  | Ok t => is_dots_dashes s = true /\ ditdah_seq t /\ encode_ditdah t = Ok s
  | Raise e => e = KeyError /\ is_dots_dashes s = false
  end.
Proof.
  induction s as [|c s IH]; [repeat split; constructor|].
  rewrite decode_ditdah_cons. cbn [is_dots_dashes]. unfold ditdah_of_char.
  destruct (Ascii.eqb_spec c "-") as [->|Hdash];
    [|destruct (Ascii.eqb_spec c ".") as [->|Hdot]]; cbn [bind orb andb].
  - destruct (decode_ditdah s) as [t|e]; cbn [bind].
    + destruct IH as (Hs & Ht & He). repeat split; [exact Hs | |].
      * constructor; [right; reflexivity | exact Ht].
      * cbn [encode_ditdah]. rewrite He. reflexivity.
    + exact IH.
  - destruct (decode_ditdah s) as [t|e]; cbn [bind].
    + destruct IH as (Hs & Ht & He). repeat split; [exact Hs | |].
      * constructor; [left; reflexivity | exact Ht].
      * cbn [encode_ditdah]. rewrite He. reflexivity.
    + exact IH.
  - split; reflexivity.
Qed.

(** X2: [encode_ditdah], and with it the resolution of a letter, returns
    exactly on the tuples of 1 and 3 and raises [KeyError] on every other
    tuple, whether or not the alphabet is asked; the string returned has one
    character for each element. *)
Theorem encode_resolve_cases (tpl : list Z) :
  match encode_ditdah tpl with
  | Ok s => ditdah_seq tpl /\ String.length s = List.length tpl /\
            exists letter, resolve tpl = Ok letter
  | Raise e => e = KeyError /\ ~ ditdah_seq tpl /\ resolve tpl = Raise KeyError
  end.
Proof.
  destruct (ditdah_seq_dec tpl) as [Ht|Hn].
  - rewrite (encode_ditdah_total tpl Ht). split; [exact Ht|]. split.
    + clear Ht. unfold literal_dots_dashes.
      induction tpl as [|u tpl IH]; cbn; [|rewrite IH]; reflexivity.
    + rewrite (resolve_ditdah tpl Ht). eexists; reflexivity.
  - unfold resolve. rewrite (encode_ditdah_raises tpl Hn). auto.
Qed.

(** ** The alphabet as a code *)

Lemma dict_get_Some_In {V : Type} (tbl : list (list Z * V)) (key : list Z) (v : V) :
  dict_get tbl key = Some v -> In (key, v) tbl.
Proof.
  induction tbl as [|[k w] tbl IH]; cbn [dict_get]; [discriminate|].
  destruct (seq_eqb k key) eqn:E.
  - apply seq_eqb_eq in E. intros [= ->]. left. congruence.
  - intros Hg. right. auto.
Qed.

Lemma alphabet_letters_distinct : NoDup (map snd alphabet).
Proof.
  repeat (constructor; [simpl; intuition discriminate|]). constructor.
Qed.

Lemma NoDup_snd_inj {A B : Type} (l : list (A * B)) (a1 a2 : A) (b : B) :
  NoDup (map snd l) -> NoDup (map fst l) ->
  In (a1, b) l -> In (a2, b) l -> a1 = a2.
Proof.
  induction l as [|[a b'] l IH]; cbn [map fst snd In]; [contradiction|].
  intros Hs Hf H1 H2. inversion Hs as [|? ? Hnot Hs']; subst.
  inversion Hf as [|? ? _ Hf']; subst.
  destruct H1 as [E1|H1], H2 as [E2|H2]; try congruence.
  - injection E1 as -> ->. exfalso. apply Hnot.
    apply (in_map snd) in H2. exact H2.
  - injection E2 as -> ->. exfalso. apply Hnot.
    apply (in_map snd) in H1. exact H1.
  - auto.
Qed.

(** A letter of the table that reads as dots and dashes is the code of
    another entry (the full stop and the hyphen read as [e] and [t]). *)
Lemma alphabet_letters_not_fallbacks :
  forallb (fun kv => match decode_ditdah (snd kv) with
                     | Ok k => match dict_get alphabet k with
                               | Some _ => true
                               | None => false
                               end
                     | Raise _ => true
                     end) alphabet = true.
Proof. vm_compute. reflexivity. Qed.

(** X3: the alphabet loses nothing when it is keyed by tuples: its 55 keys
    are distinct, its 55 letters are distinct, and every entry of the
    literal resolves from its decoded key to its letter. *)
Theorem alphabet_is_a_code :
  List.length alphabet = 55%nat /\
  NoDup (map fst alphabet) /\
  NoDup (map snd alphabet) /\
  forall k v, In (k, v) alphabet_literal ->
    exists t, decode_ditdah k = Ok t /\ resolve t = Ok v.
Proof.
  split; [reflexivity|]. split; [exact alphabet_keys_distinct|].
  split; [exact alphabet_letters_distinct|].
  intros k v Hin.
  pose proof alphabet_literal_resolved as Hall.
  rewrite forallb_forall in Hall. specialize (Hall (k, v) Hin). cbn [fst snd] in Hall.
  destruct (decode_ditdah k) as [t|]; [|discriminate]. exists t. split; [reflexivity|].
  destruct (resolve t) as [letter|]; [|discriminate].
  apply String.eqb_eq in Hall. congruence.
Qed.

Lemma alphabet_is_a_code_witness :
  In ("-.-.", "c") alphabet_literal /\
  exists t, decode_ditdah "-.-." = Ok t /\ resolve t = Ok "c".
Proof.
  assert (Hin : In ("-.-.", "c") alphabet_literal) by (cbn; auto).
  split; [exact Hin|].
  exact (proj2 (proj2 (proj2 alphabet_is_a_code)) "-.-." "c" Hin).
Defined.

(** X4: the text of a letter tells its marks: two sequences that resolve to
    the same text are the same sequence, also when one is rendered as dots
    and dashes and the other comes from the table. *)
Theorem resolve_injective (s1 s2 : list Z) (letter : string) :
  resolve s1 = Ok letter -> resolve s2 = Ok letter -> s1 = s2.
Proof.
  assert (Hmixed : forall a b v,
             ditdah_seq b -> dict_get alphabet a = Some v ->
             dict_get alphabet b = None -> v <> literal_dots_dashes b).
  { intros a b v Hb Ha Hnone E.
    pose proof alphabet_letters_not_fallbacks as Hall.
    rewrite forallb_forall in Hall.
    specialize (Hall (a, v) (dict_get_Some_In _ _ _ Ha)). cbn [snd] in Hall.
    rewrite E, (decode_literal b Hb), Hnone in Hall. discriminate. }
  intros H1 H2.
  assert (Hd1 : ditdah_seq s1).
  { destruct (ditdah_seq_dec s1) as [|Hn]; [assumption|].
    unfold resolve in H1. rewrite (encode_ditdah_raises s1 Hn) in H1. discriminate. }
  assert (Hd2 : ditdah_seq s2).
  { destruct (ditdah_seq_dec s2) as [|Hn]; [assumption|].
    unfold resolve in H2. rewrite (encode_ditdah_raises s2 Hn) in H2. discriminate. }
  rewrite (resolve_ditdah s1 Hd1) in H1. rewrite (resolve_ditdah s2 Hd2) in H2.
  destruct (dict_get alphabet s1) as [v1|] eqn:G1;
    destruct (dict_get alphabet s2) as [v2|] eqn:G2;
    injection H1 as H1; injection H2 as H2.
  - apply (NoDup_snd_inj alphabet s1 s2 letter alphabet_letters_distinct
             alphabet_keys_distinct); apply dict_get_Some_In; congruence.
  - exfalso. apply (Hmixed s1 s2 v1 Hd2 G1 G2). congruence.
  - exfalso. apply (Hmixed s2 s1 v2 Hd1 G2 G1). congruence.
  - pose proof (decode_literal s1 Hd1) as D1. rewrite H1, <- H2 in D1.
    rewrite (decode_literal s2 Hd2) in D1. congruence.
Qed.

Lemma resolve_injective_witness :
  resolve [3; 1; 3; 1] = Ok "c" /\ [3; 1; 3; 1] = [3; 1; 3; 1].
Proof.
  assert (Hc : resolve [3; 1; 3; 1] = Ok "c") by reflexivity.
  split; [exact Hc | exact (resolve_injective _ _ "c" Hc Hc)].
Defined.

(** ** What [decode_symbols] yields and puts *)

Section Classifier_output.
Context {F : Type} `{PyFloat F}.

(** X5: an iteration of [decode_symbols] yields at most one item: nothing,
    or a flush marker on a timeout, or on an edge a symbol of the table,
    made of the level before the edge and 1, 3 or 7 units, over the interval
    from the reference point to the edge. *)
Theorem decode_symbols_yields_one (samplerate : F) (st : classifier F)
        (ev : wait_result) :
  let ys := yielded_by (decode_symbols_step samplerate st ev) in
  ys = [] \/
  (ys = [Flush] /\ matched_skip ev = true) \/
  exists iunits,
    ys = [Sym (prevtime st) (samplenum ev) (1 - val ev) iunits] /\
    matched_skip ev = false /\
    (iunits = 1 \/ iunits = 3 \/ iunits = 7) /\
    (1 - val ev = 0 \/ 1 - val ev = 1).
Proof.
  cbn zeta. unfold decode_symbols_step.
  destruct (measure samplerate st ev) as [m|e] eqn:Hm; [|left; reflexivity].
  destruct (matched_skip ev); [right; left; auto|].
  cbn [yielded_by fst snd].
  destruct (in_symbols (m_pval m, m_iunits m)) eqn:E; [|left; reflexivity].
  right. right. exists (m_iunits m).
  apply measure_inv in Hm as (_ & _ & _ & _ & Hp & Hc). rewrite <- Hp, <- Hc.
  split; [reflexivity|]. split; [reflexivity|].
  apply in_symbols_iff in E. cbn [In] in E.
  destruct E as [E|[E|[E|[E|[E|[]]]]]]; injection E as <- <-; auto.
Qed.

Lemma tiles_app (start : Z) (a b : list (annotation F)) (mid : Z) :
  tiles start a = Some mid -> tiles start (a ++ b) = tiles mid b.
Proof.
  revert a start. fix IH 1. intros a start.
  destruct a as [|x a]; [intros [= ->]; reflexivity|].
  destruct x as [ss es dt| | |]; cbn [tiles]; try discriminate.
  destruct a as [|y a]; [discriminate|].
  destruct y as [|ss' es' units tu| |]; try discriminate.
  cbn [app tiles].
  destruct ((ss =? start) && (ss' =? ss) && (es' =? es)); [|discriminate].
  apply IH.
Qed.

Lemma step_tiles (samplerate : F) (st : classifier F) (ev : wait_result) :
  let r := decode_symbols_step samplerate st ev in
  exists e, tiles (prevtime st) (put_by r) = Some e /\
            (forall st', next_of r = Ok st' -> prevtime st' = e).
Proof.
  cbn zeta. unfold decode_symbols_step.
  destruct (measure samplerate st ev) as [m|err] eqn:Hm;
    [|exists (prevtime st); split; [reflexivity | discriminate]].
  destruct (matched_skip ev).
  - exists (prevtime st). split; [reflexivity|]. intros st' [= <-]. reflexivity.
  - exists (m_curtime m). cbn [put_by next_of fst snd tiles].
    rewrite !Z.eqb_refl. split; [reflexivity|].
    intros st' Ha. exact (adapt_prevtime _ _ _ Ha).
Qed.

Lemma put_by_run_cons (samplerate : F) (st : classifier F) (ev : wait_result)
      (evs : list wait_result) :
  put_by (decode_symbols_run samplerate st (ev :: evs)) =
    (put_by (decode_symbols_step samplerate st ev) ++
     match next_of (decode_symbols_step samplerate st ev) with
     | Ok st' => put_by (decode_symbols_run samplerate st' evs)
     | Raise _ => []
     end)%list.
Proof.
  cbn [decode_symbols_run].
  destruct (decode_symbols_step samplerate st ev) as [[anns ys] [st'|e]];
    cbn [put_by next_of fst snd].
  - destruct (decode_symbols_run samplerate st' evs) as [[anns' ys'] last].
    reflexivity.
  - rewrite app_nil_r. reflexivity.
Qed.

Lemma next_of_run_cons (samplerate : F) (st : classifier F) (ev : wait_result)
      (evs : list wait_result) :
  next_of (decode_symbols_run samplerate st (ev :: evs)) =
    match next_of (decode_symbols_step samplerate st ev) with
    | Ok st' => next_of (decode_symbols_run samplerate st' evs)
    | Raise e => Raise e
    end.
Proof.
  cbn [decode_symbols_run].
  destruct (decode_symbols_step samplerate st ev) as [[anns ys] [st'|e]];
    cbn [next_of snd]; [|reflexivity].
  destruct (decode_symbols_run samplerate st' evs) as [[anns' ys'] last].
  reflexivity.
Qed.

(** X6: over any run, the raw annotations of [decode_symbols] tile the
    capture from the first reference point on: they come in pairs (duration,
    units) over one interval, each interval starts where the one before
    ended, timeouts putting nothing, and the reference point left by the run
    is the end of the last interval. *)
Theorem raw_annotations_tile (samplerate : F) (evs : list wait_result) :
  forall st : classifier F,
    let r := decode_symbols_run samplerate st evs in
    exists e, tiles (prevtime st) (put_by r) = Some e /\
              match next_of r with
              | Ok st' => prevtime st' = e
              | Raise _ => True
              end.
Proof.
  induction evs as [|ev evs IH]; intros st; cbn zeta.
  - exists (prevtime st). split; reflexivity.
  - rewrite put_by_run_cons, next_of_run_cons.
    destruct (step_tiles samplerate st ev) as (e1 & Ht & Hn). cbn zeta in Ht, Hn.
    rewrite (tiles_app _ _ _ _ Ht).
    destruct (next_of (decode_symbols_step samplerate st ev)) as [st'|err].
    + destruct (IH st') as (e2 & Ht2 & Hn2). cbn zeta in Ht2, Hn2.
      rewrite (Hn st' eq_refl) in Ht2. exists e2. auto.
    + exists e1. auto.
Qed.
End Classifier_output.

(** ** What the groupers keep *)

Lemma append_assoc (a b c : string) : ((a ++ b) ++ c)%string = (a ++ (b ++ c))%string.
Proof. induction a as [|x a IH]; cbn; [|rewrite IH]; reflexivity. Qed.

Ltac simplify_kept :=
  cbn [fst snd app decode_steps decode_step g_letters g_words sequence l_s0 l_s1
       word w_s0 w_s1 decode_init decode_morse_init letters_text words_text
       forallb stamped filter is_raw String.append andb].

Section Grouper_invariant.
Context {F : Type}.

Lemma letters_text_app (a b : list (annotation F)) :
  letters_text (a ++ b) = (letters_text a ++ letters_text b)%string.
Proof.
  induction a as [|x a IH]; [reflexivity|].
  destruct x; cbn [app letters_text]; rewrite IH; [reflexivity.. | | reflexivity].
  rewrite append_assoc. reflexivity.
Qed.

Lemma words_text_app (a b : list (annotation F)) :
  words_text (a ++ b) = (words_text a ++ words_text b)%string.
Proof.
  induction a as [|x a IH]; [reflexivity|].
  destruct x; cbn [app words_text]; rewrite IH; [reflexivity.. |].
  rewrite append_assoc. reflexivity.
Qed.

Lemma group_step_kept (g : grouper) (it : item) :
  grouper_inv g -> recognised it = true ->
  exists anns g', @group_step F g it = Ok (anns, g') /\ step_kept g anns g'.
Proof.
  intros (Hd & Hl & Hw) Hit.
  destruct g as [[seq a b] [w c d]];
    cbn [g_letters g_words sequence l_s0 l_s1 word w_s0 w_s1] in *.
  assert (Hmark : forall t0 t1 u, it = Sym t0 t1 1 u -> is_ditdah u).
  { intros t0 t1 u ->. cbn [recognised] in Hit. apply in_symbols_iff in Hit.
    cbn [In] in Hit. unfold is_ditdah.
    destruct Hit as [E|[E|[E|[E|[E|[]]]]]]; injection E; intros; lia. }
  unfold group_step, step_kept, grouper_inv; cbn [g_letters g_words].
  destruct (list_eq_dec Z.eq_dec seq []) as [->|Hne].
  - (* no letter in progress *)
    destruct it as [|t0 t1 sval sunits]; cbn [decode_morse_step flush_letter sequence].
    + cbn [bind fst snd app decode_steps decode_step word].
      destruct w as [|ch w'].
      * eexists _, _. split; [reflexivity|]. simplify_kept.
        refine (conj (conj _ (conj _ _)) (conj _ (conj _ _)));
          [exact Hd | exact Hl | exact Hw | reflexivity | reflexivity | reflexivity].
      * destruct (Hw ltac:(discriminate)) as [Hc Hd'].
        destruct c as [c|]; [|congruence]. destruct d as [d|]; [|congruence].
        eexists _, _. split; [reflexivity|]. simplify_kept.
        refine (conj (conj _ (conj _ _)) (conj _ (conj _ _)));
          [exact Hd | exact Hl | congruence | reflexivity | reflexivity |].
        rewrite !append_empty. reflexivity.
    + destruct (Z.eqb_spec sval 1) as [->|Hsp].
      * eexists _, _. split; [reflexivity|]. simplify_kept.
        refine (conj (conj _ (conj _ _)) (conj _ (conj _ _)));
          [ | | exact Hw | reflexivity | reflexivity | apply append_empty].
        -- constructor; [exact (Hmark _ _ _ eq_refl) | constructor].
        -- intros _. split; [destruct a|]; discriminate.
      * assert (Hsame : (if 3 <=? sunits
                         then Ok ([], {| sequence := []; l_s0 := a; l_s1 := b |})
                         else Ok ([], {| sequence := []; l_s0 := a; l_s1 := b |}))
                        = Ok (@nil letter_item, {| sequence := []; l_s0 := a; l_s1 := b |}))
          by (destruct (3 <=? sunits); reflexivity).
        rewrite Hsame. eexists _, _. split; [reflexivity|]. simplify_kept.
        refine (conj (conj _ (conj _ _)) (conj _ (conj _ _)));
          [exact Hd | exact Hl | exact Hw | reflexivity | reflexivity
          | apply append_empty].
  - (* a letter in progress *)
    destruct (Hl Hne) as [Ha Hb].
    destruct a as [a|]; [|congruence]. destruct b as [b|]; [|congruence].
    destruct (flush_letter_resolved {| sequence := seq; l_s0 := Some a; l_s1 := Some b |}
                Hd Hne) as (letter & _ & Hletter & Hfl).
    cbn [l_s0 l_s1] in Hfl.
    destruct it as [|t0 t1 sval sunits]; cbn [decode_morse_step].
    + rewrite Hfl; cbn [bind fst snd app decode_steps decode_step].
      pose proof (append_nonempty w letter Hletter) as Hwl.
      cbn [word w_s0 w_s1].
      destruct (w ++ letter)%string as [|ch w'] eqn:Ew; [congruence|].
      eexists _, _. split; [reflexivity|]. simplify_kept.
      refine (conj (conj _ (conj _ _)) (conj _ (conj _ _)));
        [constructor | congruence | congruence | | reflexivity |].
      * destruct c; reflexivity.
      * rewrite !append_empty. exact Ew.
    + destruct (Z.eqb_spec sval 1) as [->|Hsp].
      * eexists _, _. split; [reflexivity|]. simplify_kept.
        refine (conj (conj _ (conj _ _)) (conj _ (conj _ _)));
          [ | | exact Hw | reflexivity | reflexivity | apply append_empty].
        -- apply Forall_app. split; [exact Hd|].
           constructor; [exact (Hmark _ _ _ eq_refl) | constructor].
        -- intros _. split; discriminate.
      * destruct (3 <=? sunits).
        -- rewrite Hfl; cbn [bind fst snd]. rewrite decode_letter.
           eexists _, _. split; [reflexivity|]. simplify_kept.
           refine (conj (conj _ (conj _ _)) (conj _ (conj _ _)));
             [constructor | congruence | | reflexivity | reflexivity |].
           ++ intros _. split; [destruct c|]; discriminate.
           ++ rewrite append_empty. reflexivity.
        -- eexists _, _. split; [reflexivity|]. simplify_kept.
           refine (conj (conj _ (conj _ _)) (conj _ (conj _ _)));
             [exact Hd | intros _; split; discriminate | exact Hw | reflexivity
             | reflexivity | apply append_empty].
Qed.

Lemma group_run_kept (its : list item) :
  forall g : grouper,
    grouper_inv g -> forallb recognised its = true ->
    exists anns g', @group_run F g its = Ok (anns, g') /\ step_kept g anns g'.
Proof.
  induction its as [|it its IH]; intros g Hg Hits; cbn [group_run].
  - exists [], g. split; [reflexivity|].
    refine (conj Hg (conj eq_refl (conj eq_refl _))).
    cbn [letters_text words_text String.append]. apply append_empty.
  - cbn [forallb] in Hits. apply andb_true_iff in Hits as [Hit Hits].
    destruct (group_step_kept g it Hg Hit) as (a1 & g1 & -> & Hg1 & Hs1 & Hr1 & Hc1).
    cbn [bind fst snd].
    destruct (IH g1 Hg1 Hits) as (a2 & g2 & -> & Hg2 & Hs2 & Hr2 & Hc2).
    cbn [bind fst snd]. exists (a1 ++ a2)%list, g2. split; [reflexivity|].
    unfold step_kept. split; [exact Hg2|]. split; [|split].
    + rewrite forallb_app, Hs1, Hs2. reflexivity.
    + rewrite filter_app, Hr1, Hr2. reflexivity.
    + rewrite letters_text_app, words_text_app, <- append_assoc, Hc1.
      rewrite append_assoc, Hc2, append_assoc. reflexivity.
Qed.

Lemma grouper_init_inv : grouper_inv grouper_init.
Proof.
  unfold grouper_inv; cbn. split; [constructor|]. split; intros Hne; congruence.
Qed.
End Grouper_invariant.

(** ** The whole decoder over a run *)

Section Decoder_invariant.
Context {F : Type} `{PyFloat F}.

Lemma raw_only (anns : list (annotation F)) :
  forallb is_raw anns = true ->
  filter is_raw anns = anns /\ forallb stamped anns = true /\
  letters_text anns = "" /\ words_text anns = "".
Proof.
  induction anns as [|a anns IH]; [auto|].
  cbn [forallb]. intros Hb. apply andb_true_iff in Hb as [Ha Hb].
  destruct (IH Hb) as (Hf & Hs & Hl & Hw).
  destruct a; try discriminate Ha;
    cbn [filter is_raw forallb stamped letters_text words_text andb];
    rewrite Hf; auto.
Qed.

Lemma step_puts_raw (samplerate : F) (st : classifier F) (ev : wait_result) :
  forallb is_raw (put_by (decode_symbols_step samplerate st ev)) = true.
Proof.
  unfold decode_symbols_step.
  destruct (measure samplerate st ev); [|reflexivity].
  destruct (matched_skip ev); reflexivity.
Qed.

Lemma decoder_step_kept (samplerate : F) (d : decoder F) (ev : wait_result) :
  grouper_inv (d_groups d) ->
  let r := decode_symbols_step samplerate (d_symbols d) ev in
  exists anns g',
    decoder_step samplerate d ev =
      ((put_by r ++ anns)%list,
       match next_of r with
       | Ok c => Ok {| d_symbols := c; d_groups := g' |}
       | Raise e => Raise e
       end) /\
    step_kept (d_groups d) anns g'.
Proof.
  intros Hg. cbn zeta. unfold decoder_step.
  pose proof (decode_symbols_yields_recognised samplerate (d_symbols d) ev) as Hy.
  destruct (decode_symbols_step samplerate (d_symbols d) ev) as [[a ys] n].
  cbn [yielded_by put_by next_of fst snd] in *.
  destruct (group_run_kept (F := F) ys (d_groups d) Hg Hy) as (anns & g' & -> & Hk).
  exists anns, g'. split; [|exact Hk].
  destruct n; reflexivity.
Qed.

(** What a run of the decoder keeps, against the run of [decode_symbols]
    alone over the same answers of the host. *)
Lemma decoder_run_kept (samplerate : F) (evs : list wait_result) :
  forall d : decoder F,
    grouper_inv (d_groups d) ->
    let r := decode_symbols_run samplerate (d_symbols d) evs in
    let anns := fst (decoder_run samplerate d evs) in
    forallb stamped anns = true /\
    filter is_raw anns = put_by r /\
    exists buffer,
      (word (g_words (d_groups d)) ++ letters_text anns)%string
      = (words_text anns ++ buffer)%string /\
      match snd (decoder_run samplerate d evs) with
      | Ok d' => next_of r = Ok (d_symbols d') /\ grouper_inv (d_groups d') /\
                 buffer = word (g_words (d_groups d'))
      | Raise e => next_of r = Raise e
      end.
Proof.
  induction evs as [|ev evs IH]; intros d Hg; cbn zeta.
  - cbn. repeat split. exists (word (g_words (d_groups d))).
    split; [apply append_empty | auto].
  - rewrite put_by_run_cons, next_of_run_cons. cbn [decoder_run].
    destruct (decoder_step_kept samplerate d ev Hg)
      as (a1 & g1 & -> & Hg1 & Hs1 & Hr1 & Hc1).
    destruct (raw_only _ (step_puts_raw samplerate (d_symbols d) ev))
      as (Hpf & Hps & Hpl & Hpw).
    destruct (next_of (decode_symbols_step samplerate (d_symbols d) ev)) as [c|e].
    + specialize (IH {| d_symbols := c; d_groups := g1 |} Hg1). cbn zeta in IH.
      cbn [d_symbols d_groups] in IH.
      destruct (decoder_run samplerate {| d_symbols := c; d_groups := g1 |} evs)
        as [a2 last]. cbn [fst snd] in *.
      destruct IH as (Hs2 & Hr2 & buffer & Hc2 & Hlast).
      split; [|split].
      * rewrite !forallb_app, Hps, Hs1, Hs2. reflexivity.
      * rewrite !filter_app, Hpf, Hr1, Hr2, app_nil_r. reflexivity.
      * exists buffer. split; [|exact Hlast].
        rewrite !letters_text_app, !words_text_app, Hpl, Hpw.
        cbn [String.append]. rewrite <- append_assoc, Hc1.
        rewrite append_assoc, Hc2, append_assoc. reflexivity.
    + cbn [fst snd]. split; [|split].
      * rewrite !forallb_app, Hps, Hs1. reflexivity.
      * rewrite !filter_app, Hpf, Hr1, !app_nil_r. reflexivity.
      * exists (word (g_words g1)). split; [|reflexivity].
        rewrite !letters_text_app, !words_text_app, Hpl, Hpw. exact Hc1.
Qed.

(** X7: in every run of the decoder, from the first rising edge on, each
    letter and each word annotation is put with two sample numbers, never
    with [None]. *)
Theorem annotations_stamped (samplerate option_timeunit : F) (rising : Z)
        (evs : list wait_result) :
  forallb stamped
    (fst (decoder_run samplerate (decoder_init option_timeunit rising) evs)) = true.
Proof.
  exact (proj1 (decoder_run_kept samplerate evs (decoder_init option_timeunit rising)
                  grouper_init_inv)).
Qed.

(** X8: in every run of the decoder no letter is lost or repeated: the
    texts of the letter annotations, put end to end, are the texts of the
    word annotations put end to end, followed by the letters still in the
    word buffer. *)
Theorem letters_make_words (samplerate option_timeunit : F) (rising : Z)
        (evs : list wait_result) :
  let run := decoder_run samplerate (decoder_init option_timeunit rising) evs in
  exists buffer,
    letters_text (fst run) = (words_text (fst run) ++ buffer)%string /\
    match snd run with
    | Ok d => buffer = word (g_words (d_groups d))
    | Raise _ => True
    end.
Proof.
  cbn zeta.
  destruct (decoder_run_kept samplerate evs (decoder_init option_timeunit rising)
              grouper_init_inv) as (_ & _ & buffer & Hc & Hlast).
  exists buffer. split; [exact Hc|].
  destruct (snd (decoder_run samplerate (decoder_init option_timeunit rising) evs));
    [apply Hlast | exact I].
Qed.

(** X9: the groupers add no failure and no raw annotation: a run of the
    decoder ends with the exception that [decode_symbols] alone raises over
    the same answers, or with its state if it raises none, never with the
    [KeyError] of a letter that cannot be rendered; and the raw annotations
    among those put are those of [decode_symbols], in their order. *)
Theorem decoder_fails_as_decode_symbols (samplerate option_timeunit : F)
        (rising : Z) (evs : list wait_result) :
  let run := decoder_run samplerate (decoder_init option_timeunit rising) evs in
  let r := decode_symbols_run samplerate
             (decode_symbols_init option_timeunit rising) evs in
  filter is_raw (fst run) = put_by r /\
  match snd run with
  | Ok d => next_of r = Ok (d_symbols d)
  | Raise e => next_of r = Raise e
  end.
Proof.
  cbn zeta.
  destruct (decoder_run_kept samplerate evs (decoder_init option_timeunit rising)
              grouper_init_inv) as (_ & Hraw & buffer & _ & Hlast).
  split; [exact Hraw|].
  destruct (snd (decoder_run samplerate (decoder_init option_timeunit rising) evs));
    [apply Hlast | exact Hlast].
Qed.
End Decoder_invariant.

(** X10: a flush marker leaves nothing in progress, so a second one does
    nothing: after a flush the sequence and the word buffer are empty, and
    the next flush puts no annotation and changes no state. *)
Theorem flush_twice {F : Type} (g : grouper) :
  grouper_inv g ->
  exists anns g',
    @group_step F g Flush = Ok (anns, g') /\
    sequence (g_letters g') = [] /\ word (g_words g') = "" /\
    @group_step F g' Flush = Ok ([], g').
Proof.
  intros Hg.
  destruct (group_step_cases (F := F) g Flush (proj1 Hg))
    as (anns & g' & Hstep & Hiff & Hclosed & Hopen).
  exists anns, g'. split; [exact Hstep|].
  assert (Hempty : sequence (g_letters g') = [] /\ word (g_words g') = "").
  { revert Hstep. unfold group_step; cbn [decode_morse_step].
    destruct (list_eq_dec Z.eq_dec (sequence (g_letters g)) []) as [E|Hne].
    - rewrite (flush_letter_empty _ E). cbn [bind fst snd app decode_steps decode_step].
      destruct (word (g_words g)) eqn:Ew; intros [= <- <-]; cbn; auto.
    - destruct (flush_letter_resolved _ (proj1 Hg) Hne) as (letter & _ & Hl & ->).
      cbn [bind fst snd app decode_steps decode_step word].
      pose proof (append_nonempty (word (g_words g)) letter Hl) as Hw.
      destruct (word (g_words g) ++ letter)%string; [congruence|].
      intros [= <- <-]; cbn; auto. }
  destruct Hempty as [Hs Hw]. split; [exact Hs|]. split; [exact Hw|].
  destruct g' as [ls ws]; cbn [g_letters g_words] in *.
  unfold group_step; cbn [g_letters g_words decode_morse_step].
  rewrite (flush_letter_empty ls Hs).
  cbn [bind fst snd app decode_steps decode_step]. rewrite Hw. reflexivity.
Qed.

Lemma flush_twice_witness :
  let g := {| g_letters := {| sequence := [3]; l_s0 := Some 0; l_s1 := Some 300 |};
              g_words := {| word := "e"; w_s0 := Some 0; w_s1 := Some 100 |} |} in
  grouper_inv g /\
  exists anns g',
    @group_step Q g Flush = Ok (anns, g') /\
    sequence (g_letters g') = [] /\ word (g_words g') = "" /\
    @group_step Q g' Flush = Ok ([], g').
Proof.
  cbn zeta.
  assert (Hg : grouper_inv
                 {| g_letters := {| sequence := [3]; l_s0 := Some 0; l_s1 := Some 300 |};
                    g_words := {| word := "e"; w_s0 := Some 0; w_s1 := Some 100 |} |}).
  { unfold grouper_inv; cbn. split; [repeat constructor; unfold is_ditdah; lia|].
    split; intros _; split; discriminate. }
  split; [exact Hg | exact (flush_twice _ Hg)].
Defined.

(** ** The adaptive time unit in exact arithmetic *)

Lemma round_half_even_near (n d : Z) :
  0 < d ->
  2 * n - d <= 2 * (round_half_even n d * d) <= 2 * n + d.
Proof.
  intros Hd. unfold round_half_even.
  pose proof (Z.div_mod n d ltac:(lia)) as Hn.
  pose proof (Z.mod_pos_bound n d Hd) as Hr.
  destruct (Z.compare_spec (2 * (n mod d)) d) as [E|L|G];
    [destruct (Z.even (n / d))| |]; nia.
Qed.

Lemma round_half_even_0 (n d : Z) :
  0 < d -> (round_half_even n d = 0 <-> - d <= 2 * n <= d).
Proof.
  intros Hd. unfold round_half_even.
  pose proof (Z.div_mod n d ltac:(lia)) as Hn.
  pose proof (Z.mod_pos_bound n d Hd) as Hr.
  destruct (Z.compare_spec (2 * (n mod d)) d) as [E|L|G].
  - destruct (Z.even (n / d)) eqn:Ev.
    + split; [nia|]. intros Hb.
      assert (n / d = 0 \/ n / d = -1) as [Hq|Hq] by nia; [exact Hq|].
      rewrite Hq in Ev. discriminate Ev.
    + split; [nia|]. intros Hb.
      assert (n / d = 0 \/ n / d = -1) as [Hq|Hq] by nia; [|lia].
      rewrite Hq in Ev. discriminate Ev.
  - split; nia.
  - split; nia.
Qed.

Lemma Qround_near (q : Q) :
  (inject_Z (Qround_half_even q) - (1 # 2) <= q)%Q /\
  (q <= inject_Z (Qround_half_even q) + (1 # 2))%Q.
Proof.
  destruct q as [n d]. unfold Qround_half_even; cbn [Qnum Qden].
  pose proof (round_half_even_near n (Z.pos d) ltac:(lia)) as Hr.
  set (r := round_half_even n (Z.pos d)) in *.
  unfold Qle, Qminus, Qplus, Qopp, inject_Z; cbn [Qnum Qden].
  split; nia.
Qed.

Lemma Qround_0 (q : Q) :
  Qround_half_even q = 0 <-> (- (1 # 2) <= q)%Q /\ (q <= 1 # 2)%Q.
Proof.
  destruct q as [n d]. unfold Qround_half_even; cbn [Qnum Qden].
  rewrite (round_half_even_0 n (Z.pos d)) by lia.
  unfold Qle; cbn [Qnum Qden Qopp]. lia.
Qed.

Lemma exact_zero (q : Q) : (Qnum q =? 0) = true -> (q == 0)%Q.
Proof.
  intros Hq. apply Z.eqb_eq in Hq. unfold Qeq; cbn. lia.
Qed.

(** An iteration in exact arithmetic, case by case. *)
Lemma exact_step (samplerate : Q) (st : classifier Q) (ev : wait_result) :
  let dt := (inject_Z (samplenum ev - prevtime st) / samplerate)%Q in
  let units := (dt / timeunit st)%Q in
  let iunits := Qround_half_even units in
  next_of (decode_symbols_step samplerate st ev) =
    if Qnum samplerate =? 0 then Raise ZeroDivisionError
    else if Qnum (timeunit st) =? 0 then Raise ZeroDivisionError
    else if matched_skip ev then Ok st
    else if iunits =? 0 then Raise ZeroDivisionError
    else Ok {| prevtime := samplenum ev;
               timeunit := (timeunit st
                            + (dt / inject_Z iunits - timeunit st) * (2 # 100)
                              * inject_Z iunits)%Q |}.
Proof.
  cbn zeta. unfold decode_symbols_step, measure, skip_count, int_mul, int_truediv,
    truediv, sub_int.
  cbn [float_of_int py_int py_round fmul fquot fzerob fabs fsub exact bind].
  destruct (Qnum samplerate =? 0); [reflexivity|]. cbn [bind].
  destruct (Qnum (timeunit st) =? 0); [reflexivity|]. cbn [bind].
  destruct (matched_skip ev); [reflexivity|].
  cbn [next_of snd]. unfold adapt, truediv_int, mul_int, truediv.
  cbn [float_of_int fmul fquot fzerob fsub fadd lit_0_02 exact bind
       m_dt m_iunits m_curtime inject_Z Qnum].
  destruct (Qround_half_even
              (inject_Z (samplenum ev - prevtime st) / samplerate / timeunit st) =? 0);
    reflexivity.
Qed.

Lemma adapted_timeunit (dt tu units iu : Q) :
  ~ (tu == 0)%Q -> ~ (iu == 0)%Q -> (units == dt / tu)%Q ->
  (tu + (dt / iu - tu) * (2 # 100) * iu == tu * (1 + (2 # 100) * (units - iu)))%Q.
Proof.
  intros Htu Hiu ->. field. split; assumption.
Qed.

Lemma one_percent (tu x : Q) :
  (0 < tu)%Q -> (- (1 # 2) <= x)%Q -> (x <= 1 # 2)%Q ->
  ((99 # 100) * tu <= tu * (1 + (2 # 100) * x))%Q /\
  (tu * (1 + (2 # 100) * x) <= (101 # 100) * tu)%Q.
Proof.
  intros Htu Hlo Hhi.
  pose proof (Qmult_le_compat_r _ _ tu Hlo (Qlt_le_weak _ _ Htu)) as H1.
  pose proof (Qmult_le_compat_r _ _ tu Hhi (Qlt_le_weak _ _ Htu)) as H2.
  assert (E : (tu * (1 + (2 # 100) * x) == tu + (2 # 100) * (x * tu))%Q) by ring.
  rewrite E. set (p := (x * tu)%Q) in *. split; lra.
Qed.

Lemma timeunit_step_bound (samplerate : Q) (st : classifier Q) (ev : wait_result) :
  (0 < timeunit st)%Q ->
  match next_of (decode_symbols_step samplerate st ev) with
  | Ok st' => ((99 # 100) * timeunit st <= timeunit st')%Q /\
              (timeunit st' <= (101 # 100) * timeunit st)%Q
  | Raise e => e = ZeroDivisionError
  end.
Proof.
  intros Htu. rewrite exact_step. cbn zeta.
  destruct (Qnum samplerate =? 0) eqn:Hsr; [reflexivity|].
  destruct (Qnum (timeunit st) =? 0) eqn:Hz; [reflexivity|].
  destruct (matched_skip ev); [split; lra|].
  set (dt := (inject_Z (samplenum ev - prevtime st) / samplerate)%Q).
  set (units := (dt / timeunit st)%Q).
  destruct (Z.eqb_spec (Qround_half_even units) 0) as [|Hiu]; [reflexivity|].
  cbn [timeunit].
  assert (Hinj : ~ (inject_Z (Qround_half_even units) == 0)%Q).
  { unfold Qeq; cbn. lia. }
  rewrite (adapted_timeunit dt (timeunit st) units _ (exact_nonzero _ Hz) Hinj
             (Qeq_refl _)).
  destruct (Qround_near units) as [Hlo Hhi].
  apply one_percent; [exact Htu | lra | lra].
Qed.


Lemma Qpow_pos (q : Q) (k : nat) : (0 < q)%Q -> (0 < Qpow q k)%Q.
Proof.
  intros Hq. induction k as [|k IH]; cbn [Qpow]; [reflexivity|].
  apply Qmult_lt_0_compat; assumption.
Qed.



(** ** Marks into letters *)

Lemma letter_texts_app (a b : list letter_item) :
  letter_texts (a ++ b) = (letter_texts a ++ letter_texts b)%list.
Proof.
  induction a as [|x a IH]; [reflexivity|].
  destruct x; cbn [app letter_texts]; rewrite IH; reflexivity.
Qed.

Lemma mark_units_cons (it : item) (its : list item) :
  mark_units (it :: its) = (mark_units [it] ++ mark_units its)%list.
Proof.
  destruct it as [|t0 t1 sval sunits]; cbn [mark_units]; [reflexivity|].
  destruct (sval =? 1); reflexivity.
Qed.

Lemma flush_letter_chunk (st : letter_state) :
  ditdah_seq (sequence st) ->
  exists letters st' chunks,
    flush_letter st = Ok (letters, st') /\ sequence st' = [] /\
    resolved_from chunks (letter_texts letters) /\
    sequence st = List.concat chunks.
Proof.
  intros Hd. destruct (list_eq_dec Z.eq_dec (sequence st) []) as [E|Hne].
  - exists [], st, []. rewrite (flush_letter_empty st E).
    repeat split; [exact E | constructor | exact E].
  - destruct (flush_letter_resolved st Hd Hne) as (letter & Hr & _ & ->).
    exists [Letter (l_s0 st) (l_s1 st) letter], decode_morse_init, [sequence st].
    repeat split.
    + cbn [letter_texts]. repeat constructor; assumption.
    + cbn [List.concat]. rewrite app_nil_r. reflexivity.
Qed.

Lemma decode_morse_step_chunks (st : letter_state) (it : item) :
  ditdah_seq (sequence st) -> recognised it = true ->
  exists letters st' chunks,
    decode_morse_step st it = Ok (letters, st') /\
    ditdah_seq (sequence st') /\
    resolved_from chunks (letter_texts letters) /\
    (sequence st ++ mark_units [it] = List.concat chunks ++ sequence st')%list.
Proof.
  intros Hd Hit.
  destruct (flush_letter_chunk st Hd) as (fl & fst' & fchunks & Hfl & Hfs & Hfr & Hfc).
  destruct it as [|t0 t1 sval sunits]; cbn [decode_morse_step mark_units].
  - rewrite Hfl. cbn [bind fst snd]. exists (fl ++ [LFlush])%list, fst', fchunks.
    split; [reflexivity|]. split; [rewrite Hfs; constructor|]. split.
    + rewrite letter_texts_app. cbn [letter_texts]. rewrite app_nil_r. exact Hfr.
    + rewrite Hfs, Hfc, !app_nil_r. reflexivity.
  - destruct (Z.eqb_spec sval 1) as [->|Hsp].
    + eexists [], _, []. split; [reflexivity|]. cbn [sequence].
      split; [|split; [constructor | reflexivity]].
      apply Forall_app. split; [exact Hd|]. constructor; [|constructor].
      cbn [recognised] in Hit. apply in_symbols_iff in Hit. cbn [In] in Hit.
      unfold is_ditdah.
      destruct Hit as [E|[E|[E|[E|[E|[]]]]]]; injection E; intros; lia.
    + destruct (3 <=? sunits).
      * exists fl, fst', fchunks. split; [exact Hfl|].
        split; [rewrite Hfs; constructor|]. split; [exact Hfr|].
        rewrite Hfs, Hfc, !app_nil_r. reflexivity.
      * exists [], st, []. split; [reflexivity|]. split; [exact Hd|].
        split; [constructor|]. rewrite app_nil_r. reflexivity.
Qed.

Lemma decode_morse_steps_chunks (its : list item) :
  forall st : letter_state,
    ditdah_seq (sequence st) -> forallb recognised its = true ->
    exists letters st' chunks,
      decode_morse_steps st its = Ok (letters, st') /\
      resolved_from chunks (letter_texts letters) /\
      (sequence st ++ mark_units its = List.concat chunks ++ sequence st')%list.
Proof.
  induction its as [|it its IH]; intros st Hd Hits.
  - exists [], st, []. repeat split; [constructor | apply app_nil_r].
  - cbn [forallb] in Hits. apply andb_true_iff in Hits as [Hit Hits].
    destruct (decode_morse_step_chunks st it Hd Hit)
      as (l1 & st1 & c1 & H1 & Hd1 & Hr1 & Hc1).
    destruct (IH st1 Hd1 Hits) as (l2 & st2 & c2 & H2 & Hr2 & Hc2).
    exists (l1 ++ l2)%list, st2, (c1 ++ c2)%list.
    cbn [decode_morse_steps]. rewrite H1. cbn [bind fst snd]. rewrite H2.
    split; [reflexivity|]. split.
    + rewrite letter_texts_app. apply Forall2_app; assumption.
    + rewrite mark_units_cons, app_assoc, Hc1, <- app_assoc, Hc2.
      rewrite concat_app, app_assoc. reflexivity.
Qed.

(** X13: [decode_morse] loses and repeats no mark: over any items of the
    symbol table, the units of the marks received, in order, are the
    sequences of the letters yielded, each non-empty and resolved to that
    letter's text, followed by the sequence still in progress. *)
Theorem marks_make_letters (its : list item) :
  forallb recognised its = true ->
  exists letters st chunks,
    decode_morse_steps decode_morse_init its = Ok (letters, st) /\
    resolved_from chunks (letter_texts letters) /\
    mark_units its = (List.concat chunks ++ sequence st)%list.
Proof.
  intros Hits.
  destruct (decode_morse_steps_chunks its decode_morse_init (Forall_nil _) Hits)
    as (letters & st & chunks & Hrun & Hres & Hc).
  exists letters, st, chunks. auto.
Qed.

Lemma marks_make_letters_witness :
  let its := [Sym 0 100 1 1; Sym 100 200 0 1; Sym 200 500 1 3; Sym 500 800 0 3;
              Sym 800 1100 1 3] in
  forallb recognised its = true /\
  exists letters st chunks,
    decode_morse_steps decode_morse_init its = Ok (letters, st) /\
    resolved_from chunks (letter_texts letters) /\
    mark_units its = (List.concat chunks ++ sequence st)%list.
Proof.
  cbn zeta. split; [reflexivity|].
  apply (marks_make_letters
           [Sym 0 100 1 1; Sym 100 200 0 1; Sym 200 500 1 3; Sym 500 800 0 3;
            Sym 800 1100 1 3]).
  reflexivity.
Defined.
